(** * kampanyatakvim: the administration panel and the announcement board

    A shallow embedding of the logic inside the two React components
    [AnnouncementModal] and [AdminModal]: the CSV export and import
    handlers, the IP access-table handler, the user form and the
    unread test of announcements.

    Strings are sequences of [ascii] units. The handlers only test a
    unit for being the double quote, the comma, the line feed or white
    space; the white-space characters of [trim] and of the class [\s]
    that lie beyond this alphabet (U+1680, U+2000 to U+200A, U+2028,
    U+2029, U+202F, U+205F, U+3000, U+FEFF) have no counterpart here. *)

From Stdlib Require Import Ascii String ZArith Lia List Bool Sorted.
From stdpp Require Import base option list strings gmap fin_maps.

Local Open Scope Z_scope.
Local Open Scope stdpp_scope.

(** ** JavaScript string primitives *)

Module JS.

Definition dquote : ascii := "034"%char.
Definition comma : ascii := ","%char.
Definition newline : ascii := "010"%char.

(** [WhiteSpace] and [LineTerminator] code units recognised by
    [String.prototype.trim] and by the regular-expression class [\s]. *)
Definition isWhiteSpace (c : ascii) : bool :=
  match c with
  | "009" | "010" | "011" | "012" | "013" | " " | "160" => true
  | _ => false
  end%char.

Fixpoint trimStart (s : string) : string :=
  match s with
  | String c s' => if isWhiteSpace c then trimStart s' else s
  | EmptyString => EmptyString
  end.

Fixpoint trimEnd (s : string) : string :=
  match s with
  | EmptyString => EmptyString
  | String c s' =>
      match trimEnd s' with
      | EmptyString => if isWhiteSpace c then EmptyString else String c EmptyString
      | r => String c r
      end
  end.

(** [s.trim()] *)
Definition trim (s : string) : string := trimEnd (trimStart s).

(** JavaScript truthiness of a string: only the empty string is falsy. *)
Definition truthy (s : string) : bool :=
  match s with EmptyString => false | _ => true end.

(** [s.split(sep)] for a one-character separator. *)
Fixpoint split (sep : ascii) (s : string) : list string :=
  match s with
  | EmptyString => [EmptyString]
  | String c s' =>
      if Ascii.eqb c sep then EmptyString :: split sep s'
      else match split sep s' with
           | piece :: rest => String c piece :: rest
           | [] => [String c EmptyString]
           end
  end.

(** [s.split(/[,\s]+/)]: the pieces between maximal runs of separators;
    a run at either end leaves an empty piece there. [cur] is the piece
    being read and [inRun] tells that the previous unit was a separator. *)
Fixpoint splitRuns_go (isSep : ascii → bool) (s cur : string) (inRun : bool)
  : list string :=
  match s with
  | EmptyString => [cur]
  | String c s' =>
      if isSep c then
        if inRun then splitRuns_go isSep s' EmptyString true
        else cur :: splitRuns_go isSep s' EmptyString true
      else splitRuns_go isSep s' (cur +:+ String c EmptyString) false
  end.

Definition splitRuns (isSep : ascii → bool) (s : string) : list string :=
  splitRuns_go isSep s EmptyString false.

(** [s.replace] of every double quote by two of them (the export's
    escaping of a text value). *)
Fixpoint doubleQuotes (s : string) : string :=
  match s with
  | EmptyString => EmptyString
  | String c s' =>
      if Ascii.eqb c dquote then String dquote (String dquote (doubleQuotes s'))
      else String c (doubleQuotes s')
  end.

(** [s.replace] of every pair of double quotes by a single one; matches
    are found left to right and do not overlap. *)
Fixpoint collapseQuotes (s : string) : string :=
  match s with
  | EmptyString => EmptyString
  | String c s' =>
      match s' with
      | String c' s'' =>
          if Ascii.eqb c dquote && Ascii.eqb c' dquote
          then String dquote (collapseQuotes s'')
          else String c (collapseQuotes s')
      | EmptyString => String c EmptyString
      end
  end.

Definition stripLeadingQuote (s : string) : string :=
  match s with
  | String c s' => if Ascii.eqb c dquote then s' else s
  | EmptyString => EmptyString
  end.

Fixpoint stripTrailingQuote (s : string) : string :=
  match s with
  | EmptyString => EmptyString
  | String c EmptyString => if Ascii.eqb c dquote then EmptyString else s
  | String c s' => String c (stripTrailingQuote s')
  end.

(** [s.replace] of a double quote at the start and of one at the end by
    nothing, where present. *)
Definition stripQuotes (s : string) : string :=
  stripTrailingQuote (stripLeadingQuote s).

(** [s.substring(from, to)] for [from <= to]. *)
Definition substring (from to : nat) (s : string) : string :=
  String.substring from (to - from) s.

(** [xs.join(sep)] *)
Definition join (sep : string) (xs : list string) : string :=
  String.concat sep xs.

(** Tests on the code units of a string, used to state what a text may
    contain. *)
Fixpoint allChars (ok : ascii → bool) (s : string) : bool :=
  match s with
  | EmptyString => true
  | String c s' => ok c && allChars ok s'
  end.

Definition noLineFeed (s : string) : bool :=
  allChars (λ c, negb (Ascii.eqb c newline)) s.

(** Neither a double quote, nor a comma, nor a line feed. *)
Definition bare (s : string) : bool :=
  allChars (λ c, negb (Ascii.eqb c dquote) && negb (Ascii.eqb c comma)
                 && negb (Ascii.eqb c newline)) s.

Fixpoint endsWithQuote (s : string) : bool :=
  match s with
  | EmptyString => false
  | String c EmptyString => Ascii.eqb c dquote
  | String _ s' => endsWithQuote s'
  end.


(** The property names every plain object inherits from
    [Object.prototype]: its standard methods, the legacy accessor
    helpers and [__proto__]. Reading [obj[name]] for one of them on an
    object that has no property of its own under that name gives the
    inherited function (for [__proto__], the prototype object), a truthy
    value. *)
Definition objectPrototypeNames : list string :=
  [ "constructor"; "hasOwnProperty"; "isPrototypeOf"; "propertyIsEnumerable";
    "toLocaleString"; "toString"; "valueOf"; "__proto__";
    "__defineGetter__"; "__defineSetter__"; "__lookupGetter__"; "__lookupSetter__" ].

Definition inheritedName (key : string) : bool :=
  bool_decide (key ∈ objectPrototypeNames).

End JS.

(** ** Data model (the shapes of [../types] as the components use them) *)

(** A JavaScript [Date]: a time value in milliseconds since the epoch, or
    the Invalid Date. *)
Inductive JSDate : Type :=
  | ValidDate (t : Z)
  | InvalidDate.

Record UrgencyConfig : Type := mkUrgencyConfig {
  label : string;
  colorBg : string;
  colorBorder : string;
  colorText : string
}.

Record File : Type := mkFile { fileName : string }.

Module Department.
Record t : Type := mk { id : string; name : string }.
End Department.

Module User.
Record t : Type := mk {
  id : string;
  name : string;
  email : string;
  emoji : string;
  avatarUrl : option string
}.
End User.

Module CalendarEvent.
Record t : Type := mk {
  id : string;
  title : string;
  date : JSDate;
  urgency : string;
  description : option string;
  departmentId : option string;
  assigneeId : option string
}.
End CalendarEvent.

(** The object literal pushed by the import loop, a [Partial<CalendarEvent>]. *)
Module PartialEvent.
Record t : Type := mk {
  title : string;
  date : JSDate;
  urgency : string;
  description : option string;
  departmentId : option string;
  assigneeId : option string
}.
End PartialEvent.

Module Announcement.
Record t : Type := mk {
  id : string;
  title : string;
  content : string;
  createdAt : JSDate;
  readBy : option (list string)
}.
End Announcement.

Module IpAccessConfig.
Record t : Type := mk {
  designerIps : option (list string);
  departmentIps : gmap string string
}.
End IpAccessConfig.

(** ** What the components import from outside the repository's sources

    [formatYmd] is date-fns [format(d, 'yyyy-MM-dd')] on a valid time
    value, [newDate] the [Date] constructor applied to a string,
    [startOfDay] date-fns [startOfDay] (local midnight), [URGENCY_CONFIGS]
    the table of [../constants] (its own keys), [uploadAvatar] the
    composition of [uploadBytes] and [getDownloadURL] (a URL, or the
    message of the error thrown), and the two [..Rejects] fields tell
    whether the promise of a callback prop rejects, and with which
    message. *)
Class Runtime : Type := mkRuntime {
  formatYmd : Z → string;
  newDate : string → JSDate;
  startOfDay : Z → Z;
  URGENCY_CONFIGS : gmap string UrgencyConfig;
  uploadAvatar : File → string + string;
  onAddUserRejects : string → string → string → string → option string;
  onBulkAddEventsRejects : list PartialEvent.t → option string
}.

(** ** AnnouncementModal *)

Module AnnouncementModal.
Section WithRuntime.
Context {rt : Runtime}.

(** date-fns [isSameDay]: the two local midnights are the same instant;
    an Invalid Date is on no day. *)
Definition isSameDay (a b : JSDate) : bool :=
  match a, b with
  | ValidDate x, ValidDate y => Z.eqb (startOfDay x) (startOfDay y)
  | _, _ => false
  end.

(** date-fns [isToday(d)], with [Date.now()] made explicit. *)
Definition isToday (now : Z) (d : JSDate) : bool := isSameDay d (ValidDate now).

(** [(announcement.readBy || []).includes(id)] *)
Definition readByIncludes (a : Announcement.t) (id : string) : bool :=
  bool_decide (id ∈ default [] (Announcement.readBy a)).

(** Truthiness of [currentUserId : string | null]. *)
Definition userIdTruthy (currentUserId : option string) : bool :=
  match currentUserId with
  | Some id => JS.truthy id
  | None => false
  end.

(** The condition that paints an announcement as new and shows its
    badge: [isToday(createdAt) && currentUserId && !readBy.includes(..)]. *)
Definition isUnread (now : Z) (a : Announcement.t) (currentUserId : option string)
  : bool :=
  isToday now (Announcement.createdAt a)
  && match currentUserId with
     | Some id => JS.truthy id && negb (readByIncludes a id)
     | None => false
     end.

(** The effect run when the modal is shown, over the announcements as
    already sorted for display: the identifiers passed to [onMarkAsRead],
    in order. *)
Definition markUnreadEffect (now : Z) (isOpen : bool)
    (sortedAnnouncements : list Announcement.t) (currentUserId : option string)
  : list string :=
  if isOpen && userIdTruthy currentUserId then
    match currentUserId with
    | Some id =>
        omap (λ a, if isToday now (Announcement.createdAt a)
                      && negb (readByIncludes a id)
                   then Some (Announcement.id a) else None)
             sortedAnnouncements
    | None => []
    end
  else [].

End WithRuntime.
End AnnouncementModal.

(** ** AdminModal *)

Module AdminModal.

(** The [useState] cells the modelled handlers read or write. *)
Record State : Type := mkState {
  importText : string;
  newName : string;
  newEmail : string;
  selectedEmoji : string;
  avatarFile : option File;
  isUploading : bool;
  uploadPreview : string;
  newMapIp : string;
  newMapDeptId : string;
  error : string
}.

Record Props : Type := mkProps {
  users : list User.t;
  events : list CalendarEvent.t;
  departments : list Department.t;
  ipConfig : IpAccessConfig.t
}.

(** Calls of the callback props. *)
Inductive Call : Type :=
  | onAddUser (name email emoji avatarUrl : string)
  | onUpdateIpConfig (config : IpAccessConfig.t)
  | onBulkAddEvents (events : list PartialEvent.t).

Definition setImportText (v : string) (st : State) : State :=
  mkState v (newName st) (newEmail st) (selectedEmoji st) (avatarFile st)
    (isUploading st) (uploadPreview st) (newMapIp st) (newMapDeptId st) (error st).
Definition setNewName (v : string) (st : State) : State :=
  mkState (importText st) v (newEmail st) (selectedEmoji st) (avatarFile st)
    (isUploading st) (uploadPreview st) (newMapIp st) (newMapDeptId st) (error st).
Definition setNewEmail (v : string) (st : State) : State :=
  mkState (importText st) (newName st) v (selectedEmoji st) (avatarFile st)
    (isUploading st) (uploadPreview st) (newMapIp st) (newMapDeptId st) (error st).
Definition setSelectedEmoji (v : string) (st : State) : State :=
  mkState (importText st) (newName st) (newEmail st) v (avatarFile st)
    (isUploading st) (uploadPreview st) (newMapIp st) (newMapDeptId st) (error st).
Definition setAvatarFile (v : option File) (st : State) : State :=
  mkState (importText st) (newName st) (newEmail st) (selectedEmoji st) v
    (isUploading st) (uploadPreview st) (newMapIp st) (newMapDeptId st) (error st).
Definition setIsUploading (v : bool) (st : State) : State :=
  mkState (importText st) (newName st) (newEmail st) (selectedEmoji st)
    (avatarFile st) v (uploadPreview st) (newMapIp st) (newMapDeptId st) (error st).
Definition setUploadPreview (v : string) (st : State) : State :=
  mkState (importText st) (newName st) (newEmail st) (selectedEmoji st)
    (avatarFile st) (isUploading st) v (newMapIp st) (newMapDeptId st) (error st).
Definition setNewMapIp (v : string) (st : State) : State :=
  mkState (importText st) (newName st) (newEmail st) (selectedEmoji st)
    (avatarFile st) (isUploading st) (uploadPreview st) v (newMapDeptId st) (error st).
Definition setNewMapDeptId (v : string) (st : State) : State :=
  mkState (importText st) (newName st) (newEmail st) (selectedEmoji st)
    (avatarFile st) (isUploading st) (uploadPreview st) (newMapIp st) v (error st).
Definition setError (v : string) (st : State) : State :=
  mkState (importText st) (newName st) (newEmail st) (selectedEmoji st)
    (avatarFile st) (isUploading st) (uploadPreview st) (newMapIp st)
    (newMapDeptId st) v.

(** [x || ''] on an optional string. *)
Definition orEmpty (x : option string) : string := default EmptyString x.

(** *** handleAddSubmit *)

Definition fallbackEmoji : string := "👤".

Section WithRuntime.
Context {rt : Runtime}.

Definition handleAddSubmit (st : State) : State * option Call :=
  if negb (JS.truthy (JS.trim (newName st))) || negb (JS.truthy (JS.trim (newEmail st)))
  then (setError "Lütfen isim ve e-posta alanlarını doldurunuz." st, None)
  else if negb (JS.truthy (selectedEmoji st)) && negb (bool_decide (is_Some (avatarFile st)))
  then (setError "Lütfen bir emoji seçiniz veya fotoğraf yükleyiniz." st, None)
  else
    let uploading := setIsUploading true st in
    let uploaded :=
      match avatarFile st with
      | Some f => uploadAvatar f
      | None => inl EmptyString
      end in
    match uploaded with
    | inr msg =>
        (setIsUploading false
           (setError ("Kullanıcı eklenirken hata oluştu: " +:+ msg) uploading), None)
    | inl avatarUrl =>
        let emojiToSave :=
          if JS.truthy (selectedEmoji st) then selectedEmoji st else fallbackEmoji in
        let call := onAddUser (newName st) (newEmail st) emojiToSave avatarUrl in
        match onAddUserRejects (newName st) (newEmail st) emojiToSave avatarUrl with
        | Some msg =>
            (setIsUploading false
               (setError ("Kullanıcı eklenirken hata oluştu: " +:+ msg) uploading),
             Some call)
        | None =>
            (setIsUploading false
               (setError EmptyString
                  (setUploadPreview EmptyString
                     (setAvatarFile None
                        (setSelectedEmoji EmptyString
                           (setNewEmail EmptyString
                              (setNewName EmptyString uploading)))))),
             Some call)
        end
    end.

End WithRuntime.

(** *** handleAddIpMapping *)

(** The separator class of [/[,\s]+/]. *)
Definition isIpSeparator (c : ascii) : bool :=
  Ascii.eqb c JS.comma || JS.isWhiteSpace c.

Definition ipsToAdd (text : string) : list string :=
  filter (λ ip, JS.trim ip ≠ EmptyString) (JS.splitRuns isIpSeparator text).

(** Truthiness of [departmentIps[ip]]: the unit id stored under [ip]
    when the object has that key, and otherwise whatever a plain object
    inherits under that name. *)
Definition ipMapped (departmentIps : gmap string string) (ip : string) : bool :=
  match departmentIps !! ip with
  | Some deptId => JS.truthy deptId
  | None => JS.inheritedName ip
  end.

Definition handleAddIpMapping (p : Props) (st : State) : State * option Call :=
  if negb (JS.truthy (JS.trim (newMapIp st))) || negb (JS.truthy (newMapDeptId st))
  then (setError "Lütfen IP adresi ve birim seçiniz." st, None)
  else
    let ips := ipsToAdd (newMapIp st) in
    let existingIps :=
      filter (λ ip, ipMapped (IpAccessConfig.departmentIps (ipConfig p)) ip = true) ips in
    if bool_decide (0 < length existingIps)%nat
    then (setError ("Şu IP'ler zaten tanımlı: " +:+ JS.join ", " existingIps) st, None)
    else
      let updatedMap :=
        foldl (λ m ip, <[ip := newMapDeptId st]> m)
              (IpAccessConfig.departmentIps (ipConfig p)) ips in
      (setError EmptyString (setNewMapDeptId EmptyString (setNewMapIp EmptyString st)),
       Some (onUpdateIpConfig
               (IpAccessConfig.mk (IpAccessConfig.designerIps (ipConfig p)) updatedMap))).

(** The configuration in force after a handler ran: the one handed to
    [onUpdateIpConfig], or the old one when no call was made. *)
Definition ipConfigAfter (p : Props) (out : State * option Call) : IpAccessConfig.t :=
  match out.2 with
  | Some (onUpdateIpConfig config) => config
  | _ => ipConfig p
  end.

(** *** handleExportCSV *)

Definition csvHeader : string := "Title,Date,Urgency,Description,Department,Assignee".

Definition nl : string := String JS.newline EmptyString.
Definition quoteMark : string := String JS.dquote EmptyString.

(** A text value between double quotes, its own double quotes doubled
    (the template of [safeTitle], [safeDesc], [safeDept], [safeUser]). *)
Definition safe (value : string) : string :=
  quoteMark +:+ JS.doubleQuotes value +:+ quoteMark.

(** [departments.find(d => d.id === ev.departmentId)?.name || ''] *)
Definition deptNameOf (departments : list Department.t) (departmentId : option string)
  : string :=
  orEmpty (Department.name <$>
           find (λ d, bool_decide (Some (Department.id d) = departmentId)) departments).

(** [users.find(u => u.id === ev.assigneeId)?.name || ''] *)
Definition userNameOf (users : list User.t) (assigneeId : option string) : string :=
  orEmpty (User.name <$>
           find (λ u, bool_decide (Some (User.id u) = assigneeId)) users).

Section WithRuntime.
Context {rt : Runtime}.

(** date-fns [format(d, 'yyyy-MM-dd')]; it throws on an Invalid Date. *)
Definition format_yyyy_MM_dd (d : JSDate) : option string :=
  match d with
  | ValidDate t => Some (formatYmd t)
  | InvalidDate => None
  end.

(** The six texts put on an event's line, in order. *)
Definition exportFields (p : Props) (ev : CalendarEvent.t) : option (list string) :=
  let dept := deptNameOf (departments p) (CalendarEvent.departmentId ev) in
  let user := userNameOf (users p) (CalendarEvent.assigneeId ev) in
  dateStr ← format_yyyy_MM_dd (CalendarEvent.date ev);
  let safeTitle := safe (CalendarEvent.title ev) in
  let safeDesc := safe (orEmpty (CalendarEvent.description ev)) in
  let safeDept := safe dept in
  let safeUser := safe user in
  Some [safeTitle; dateStr; CalendarEvent.urgency ev; safeDesc; safeDept; safeUser].

(** The template literal appended for an event: the fields with commas
    between them and a line feed at the end. *)
Definition exportLine (p : Props) (ev : CalendarEvent.t) : option string :=
  fields ← exportFields p ev;
  Some (JS.join "," fields +:+ nl).

(** The body of [handleExportCSV] up to the text handed to the [Blob];
    [None] when [format] throws. *)
Definition handleExportCSV (p : Props) : option string :=
  foldl (λ acc ev, csvContent ← acc; line ← exportLine p ev; Some (csvContent +:+ line))
        (Some (csvHeader +:+ nl)) (events p).

End WithRuntime.

(** *** handleImportCSV *)

(** The state of the loop of [parseCSVLine]. *)
Record ScanState : Type := mkScan {
  result : list string;
  start : nat;
  inQuotes : bool
}.

(** The two [replace] calls applied to a cut-out field: the enclosing
    quotes go, then doubled quotes become single. *)
Definition cleanField (s : string) : string :=
  JS.collapseQuotes (JS.stripQuotes s).

(** One turn of the [for] loop, at index [i]. *)
Definition parseCSVLine_step (line : string) (st : ScanState) (i : nat) : ScanState :=
  match String.get i line with
  | Some c =>
      if Ascii.eqb c JS.dquote then mkScan (result st) (start st) (negb (inQuotes st))
      else if Ascii.eqb c JS.comma && negb (inQuotes st) then
        mkScan (result st ++ [cleanField (JS.substring (start st) i line)])
               (S i) (inQuotes st)
      else st
  | None => st
  end.

Definition parseCSVLine (line : string) : list string :=
  let st := foldl (parseCSVLine_step line) (mkScan [] 0%nat false)
                  (seq 0 (String.length line)) in
  result st ++ [cleanField (JS.substring (start st) (String.length line) line)].

(** The scanner of [parseCSVLine] by recursion on the text still to be
    read: [cur] is [line.substring(start, i)]. *)
Fixpoint scanFields (s cur : string) (inQ : bool) : list string :=
  match s with
  | EmptyString => [cleanField cur]
  | String c s' =>
      if Ascii.eqb c JS.dquote then scanFields s' (cur +:+ String c EmptyString) (negb inQ)
      else if Ascii.eqb c JS.comma && negb inQ
      then cleanField cur :: scanFields s' EmptyString inQ
      else scanFields s' (cur +:+ String c EmptyString) inQ
  end.

Section WithRuntime.
Context {rt : Runtime}.

(** Truthiness of [URGENCY_CONFIGS[urgency]]: a configuration record
    stored under [urgency] is an object, hence truthy; without one the
    name is looked up in [Object.prototype]. *)
Definition urgencyKnown (urgency : string) : bool :=
  match URGENCY_CONFIGS !! urgency with
  | Some _ => true
  | None => JS.inheritedName urgency
  end.

(** [URGENCY_CONFIGS[urgency] ? urgency : 'Medium'] *)
Definition coerceUrgency (urgency : string) : string :=
  if urgencyKnown urgency then urgency else "Medium".

(** [departments.find(d => d.name === deptName)?.id] *)
Definition deptIdOf (departments : list Department.t) (deptName : option string)
  : option string :=
  Department.id <$> find (λ d, bool_decide (Some (Department.name d) = deptName)) departments.

(** [users.find(u => u.name === userName)?.id] *)
Definition userIdOf (users : list User.t) (userName : option string) : option string :=
  User.id <$> find (λ u, bool_decide (Some (User.name u) = userName)) users.

(** The body of the import loop for one element of [lines]: [None] is
    [continue], [Some] the record pushed on [newEvents]. *)
Definition importLine (p : Props) (rawLine : string) : option PartialEvent.t :=
  let line := JS.trim rawLine in
  if negb (JS.truthy line) then None
  else
    let cols := parseCSVLine line in
    if (length cols <? 3)%nat then None
    else
      let title := default EmptyString (cols !! 0%nat) in
      let dateStr := default EmptyString (cols !! 1%nat) in
      let urgency := default EmptyString (cols !! 2%nat) in
      let description := cols !! 3%nat in
      let deptName := cols !! 4%nat in
      let userName := cols !! 5%nat in
      let deptId := deptIdOf (departments p) deptName in
      let assigneeId := userIdOf (users p) userName in
      Some (PartialEvent.mk title (newDate dateStr) (coerceUrgency urgency)
              description deptId assigneeId).

Definition handleImportCSV (p : Props) (st : State) : State * option Call :=
  if negb (JS.truthy (JS.trim (importText st)))
  then (setError "Lütfen CSV verisi giriniz." st, None)
  else
    let lines := JS.split JS.newline (JS.trim (importText st)) in
    if (length lines <? 2)%nat
    then (setError "CSV içeriği boş veya sadece başlıktan oluşuyor." st, None)
    else
      let newEvents := omap (importLine p) (tail lines) in
      match onBulkAddEventsRejects newEvents with
      | Some _ =>
          (setError "Import hatası: CSV formatını kontrol ediniz." st,
           Some (onBulkAddEvents newEvents))
      | None =>
          (setError EmptyString (setImportText EmptyString st),
           Some (onBulkAddEvents newEvents))
      end.

(** *** Vocabulary of the statements about export and import *)

Definition initialState : State :=
  mkState EmptyString EmptyString EmptyString EmptyString None false
    EmptyString EmptyString EmptyString EmptyString.

(** The records handed to [onBulkAddEvents] when [text] is imported. *)
Definition decode (p : Props) (text : string) : option (list PartialEvent.t) :=
  match (handleImportCSV p (setImportText text initialState)).2 with
  | Some (onBulkAddEvents newEvents) => Some newEvents
  | _ => None
  end.

(** A decoded record agrees with an event in title, calendar date,
    urgency and the names its department and assignee resolve to. *)
Definition sameEvent (p : Props) (ev : CalendarEvent.t) (r : PartialEvent.t) : Prop :=
  PartialEvent.title r = CalendarEvent.title ev
  ∧ is_Some (format_yyyy_MM_dd (CalendarEvent.date ev))
  ∧ format_yyyy_MM_dd (PartialEvent.date r) = format_yyyy_MM_dd (CalendarEvent.date ev)
  ∧ PartialEvent.urgency r = CalendarEvent.urgency ev
  ∧ deptNameOf (departments p) (PartialEvent.departmentId r)
    = deptNameOf (departments p) (CalendarEvent.departmentId ev)
  ∧ userNameOf (users p) (PartialEvent.assigneeId r)
    = userNameOf (users p) (CalendarEvent.assigneeId ev).

Definition roundTrips (p : Props) : Prop :=
  ∃ text decoded,
    handleExportCSV p = Some text
    ∧ decode p text = Some decoded
    ∧ Forall2 (sameEvent p) (events p) decoded.

(** A valid event record: a title, a date, a known urgency level. *)
Definition validEvent (ev : CalendarEvent.t) : Prop :=
  CalendarEvent.title ev ≠ EmptyString
  ∧ (∃ t, CalendarEvent.date ev = ValidDate t)
  ∧ is_Some (URGENCY_CONFIGS !! CalendarEvent.urgency ev).

(** The line of an event without its final line feed, for a given text
    of the date. *)
Definition rowText (p : Props) (ev : CalendarEvent.t) (dateStr : string) : string :=
  JS.join ","
    [safe (CalendarEvent.title ev); dateStr; CalendarEvent.urgency ev;
     safe (orEmpty (CalendarEvent.description ev));
     safe (deptNameOf (departments p) (CalendarEvent.departmentId ev));
     safe (userNameOf (users p) (CalendarEvent.assigneeId ev))].

Definition dateText (ev : CalendarEvent.t) : string :=
  orEmpty (format_yyyy_MM_dd (CalendarEvent.date ev)).

(** Lines, each one closed by a line feed. *)
Definition unlines (rows : list string) : string :=
  foldr (λ row acc, row +:+ nl +:+ acc) EmptyString rows.

(** The record the import makes of an exported line. *)
Definition reimported (p : Props) (ev : CalendarEvent.t) : PartialEvent.t :=
  PartialEvent.mk (CalendarEvent.title ev) (newDate (dateText ev))
    (coerceUrgency (CalendarEvent.urgency ev))
    (Some (orEmpty (CalendarEvent.description ev)))
    (deptIdOf (departments p)
       (Some (deptNameOf (departments p) (CalendarEvent.departmentId ev))))
    (userIdOf (users p) (Some (userNameOf (users p) (CalendarEvent.assigneeId ev)))).

(** What the line-by-line import needs of an event beyond validity: no
    line feed inside its texts, an urgency key and a date text that can
    stand unquoted, and a date text the [Date] constructor reads back as
    the same calendar day. *)
Definition lineSafe (p : Props) (ev : CalendarEvent.t) : Prop :=
  JS.noLineFeed (CalendarEvent.title ev) = true
  ∧ JS.noLineFeed (orEmpty (CalendarEvent.description ev)) = true
  ∧ JS.noLineFeed (deptNameOf (departments p) (CalendarEvent.departmentId ev)) = true
  ∧ JS.noLineFeed (userNameOf (users p) (CalendarEvent.assigneeId ev)) = true
  ∧ JS.bare (CalendarEvent.urgency ev) = true
  ∧ ∀ t, CalendarEvent.date ev = ValidDate t →
      JS.bare (formatYmd t) = true
      ∧ format_yyyy_MM_dd (newDate (formatYmd t)) = Some (formatYmd t).

End WithRuntime.

End AdminModal.

(** ** A sample runtime

    One concrete [Runtime] on which the statements below are exercised:
    the proleptic Gregorian calendar at the fixed offset UTC+3, a [Date]
    constructor that reads the date-only form [yyyy-MM-dd] as UTC
    midnight and nothing else, and a four-level urgency table. *)

Module SampleRuntime.

Definition msPerDay : Z := 86400000.
Definition tzOffsetMs : Z := 3 * 3600000.

(** Days since 1970-01-01 of a civil date, and back. *)
Definition daysFromCivil (y m d : Z) : Z :=
  let y' := if m <=? 2 then y - 1 else y in
  let era := y' / 400 in
  let yoe := y' - era * 400 in
  let doy := (153 * (if m >? 2 then m - 3 else m + 9) + 2) / 5 + d - 1 in
  let doe := yoe * 365 + yoe / 4 - yoe / 100 + doy in
  era * 146097 + doe - 719468.

Definition civilFromDays (z : Z) : Z * Z * Z :=
  let z' := z + 719468 in
  let era := z' / 146097 in
  let doe := z' - era * 146097 in
  let yoe := (doe - doe / 1460 + doe / 36524 - doe / 146096) / 365 in
  let doy := doe - (365 * yoe + yoe / 4 - yoe / 100) in
  let mp := (5 * doy + 2) / 153 in
  let d := doy - (153 * mp + 2) / 5 + 1 in
  let m := if mp <? 10 then mp + 3 else mp - 9 in
  let y := yoe + era * 400 in
  (if m <=? 2 then y + 1 else y, m, d).

Definition digit (n : Z) : ascii := ascii_of_nat (48 + Z.to_nat (n mod 10)).

Fixpoint digits (width : nat) (n : Z) (acc : string) : string :=
  match width with
  | O => acc
  | S w => digits w (n / 10) (String (digit n) acc)
  end.

(** [yyyy-MM-dd] of a time value in the zone [offsetMs] east of UTC. *)
Definition formatYmdAt (offsetMs t : Z) : string :=
  let '(y, m, d) := civilFromDays ((t + offsetMs) / msPerDay) in
  digits 4 y EmptyString +:+ "-" +:+ digits 2 m EmptyString +:+ "-"
    +:+ digits 2 d EmptyString.

Definition sampleFormatYmd (t : Z) : string := formatYmdAt tzOffsetMs t.

Definition digitValue (c : ascii) : option Z :=
  let n := nat_of_ascii c in
  if (48 <=? n)%nat && (n <=? 57)%nat then Some (Z.of_nat (n - 48)) else None.

Fixpoint number (s : string) (acc : Z) : option Z :=
  match s with
  | EmptyString => Some acc
  | String c s' => v ← digitValue c; number s' (acc * 10 + v)
  end.

Definition sampleNewDate (s : string) : JSDate :=
  if bool_decide (String.length s = 10%nat)
     && bool_decide (String.get 4 s = Some "-"%char)
     && bool_decide (String.get 7 s = Some "-"%char)
  then
    match number (String.substring 0 4 s) 0, number (String.substring 5 2 s) 0,
          number (String.substring 8 2 s) 0 with
    | Some y, Some m, Some d =>
        if (1 <=? m) && (m <=? 12) && (1 <=? d) && (d <=? 31)
        then ValidDate (daysFromCivil y m d * msPerDay)
        else InvalidDate
    | _, _, _ => InvalidDate
    end
  else InvalidDate.

Definition sampleStartOfDay (t : Z) : Z :=
  (t + tzOffsetMs) / msPerDay * msPerDay - tzOffsetMs.

Definition sampleUrgencyConfigs : gmap string UrgencyConfig :=
  list_to_map
    [("Very High", mkUrgencyConfig "Çok Yüksek" "bg-red-100" "border-red-300" "text-red-800");
     ("High", mkUrgencyConfig "Yüksek" "bg-orange-100" "border-orange-300" "text-orange-800");
     ("Medium", mkUrgencyConfig "Orta" "bg-yellow-100" "border-yellow-300" "text-yellow-800");
     ("Low", mkUrgencyConfig "Düşük" "bg-green-100" "border-green-300" "text-green-800")].

Definition sampleUpload (f : File) : string + string :=
  inl ("https://storage.example/user-avatars/" +:+ fileName f).

Definition runtime : Runtime :=
  mkRuntime sampleFormatYmd sampleNewDate sampleStartOfDay sampleUrgencyConfigs
    sampleUpload (λ _ _ _ _, None) (λ _, None).

End SampleRuntime.

(** ** Sample data *)

Module Sample.
Import JS AdminModal.

Definition departments : list Department.t :=
  [Department.mk "d1" "Satış"; Department.mk "d2" "Pazarlama, Dijital"].

Definition users : list User.t :=
  [User.mk "u1" "Ayşe Kaya" "ayse@example.com" "🦊" None;
   User.mk "u2" "Mehmet Demir" "mehmet@example.com" "👤"
     (Some "https://storage.example/user-avatars/1_m.png")].

Definition ipConfig : IpAccessConfig.t :=
  IpAccessConfig.mk (Some ["10.0.0.9"]) {["10.0.0.1" := "d1"]}.

(** 15 January 2024, 10:00 UTC. *)
Definition jan15 : JSDate := ValidDate 1705312800000.

Definition saleTitle : string :=
  "Sale, " +:+ quoteMark +:+ "Big" +:+ quoteMark +:+ " Event".

Definition sale : CalendarEvent.t :=
  CalendarEvent.mk "e1" saleTitle jan15 "High" (Some "Kış indirimi")
    (Some "d2") (Some "u1").

Definition launch : CalendarEvent.t :=
  CalendarEvent.mk "e2" "Lansman" (ValidDate 0) "Low" None (Some "silinmiş") None.

(** An event whose description runs over two lines. *)
Definition twoLines : CalendarEvent.t :=
  CalendarEvent.mk "e3" "Kampanya" jan15 "High" (Some ("Birinci satır" +:+ nl +:+ "ikinci satır"))
    (Some "d1") (Some "u1").

Definition props (events : list CalendarEvent.t) : Props :=
  mkProps users events departments ipConfig.


(** The texts put on the line of [sale]. *)
Definition saleFields : list string :=
  [safe saleTitle; "2024-01-15"; "High"; safe "Kış indirimi";
   safe "Pazarlama, Dijital"; safe "Ayşe Kaya"].

(** A pasted text: the header, a line with an unreadable date and an
    unknown urgency, a line of two fields, and a line of six. *)
Definition pastedText : string :=
  csvHeader +:+ nl
  +:+ "Bahar kampanyası,yakında,Acil" +:+ nl
  +:+ "yarım,satır" +:+ nl
  +:+ safe saleTitle +:+ ",2024-01-15,High,,Satış,Mehmet Demir".

Definition pastedForm : State := setImportText pastedText initialState.

Definition springRecord : PartialEvent.t :=
  PartialEvent.mk "Bahar kampanyası" InvalidDate "Medium" None None None.

Definition saleRecord : PartialEvent.t :=
  PartialEvent.mk saleTitle (ValidDate 1705276800000) "High" (Some EmptyString)
    (Some "d1") (Some "u2").

Definition mappingForm (text deptId : string) : State :=
  setNewMapDeptId deptId (setNewMapIp text initialState).

Definition duyuru (createdAt : Z) (readBy : option (list string)) : Announcement.t :=
  Announcement.mk "a1" "Bakım" "Sistem bakımı yapılacaktır." (ValidDate createdAt) readBy.

(** 15 January 2024, 23:30 and 16 January 2024, 00:30 in the sample
    time zone. *)
Definition lateEvening : Z := 1705350600000.
Definition afterMidnight : Z := 1705354200000.

(** The user form with a name, an e-mail address and a photo, no emoji. *)
Definition photoForm : State :=
  setAvatarFile (Some (mkFile "ayse.png"))
    (setNewEmail "ayse@example.com" (setNewName "Ayşe Kaya" initialState)).

End Sample.

(** ** AdminModal: the handlers beside the forms above *)

Module AdminPanel.
Import AdminModal.

(** The props with another access configuration, as the parent passes
    them once [onUpdateIpConfig] has run. *)
Definition withIpConfig (config : IpAccessConfig.t) (p : Props) : Props :=
  mkProps (users p) (events p) (departments p) config.

(** [ipConfig.designerIps || []] *)
Definition currentIps (p : Props) : list string :=
  default [] (IpAccessConfig.designerIps (ipConfig p)).

(** *** handleAddDesignerIp

    The cells are [newDesignerIp] and [error]; the result is their new
    content and the configuration handed to [onUpdateIpConfig], if any. *)
Definition handleAddDesignerIp (p : Props) (newDesignerIp error : string)
  : (string * string) * option IpAccessConfig.t :=
  if negb (JS.truthy (JS.trim newDesignerIp))
  then ((newDesignerIp, "IP adresi boş olamaz."), None)
  else if bool_decide (newDesignerIp ∈ currentIps p)
  then ((newDesignerIp, "Bu IP zaten ekli."), None)
  else ((EmptyString, EmptyString),
        Some (IpAccessConfig.mk (Some (currentIps p ++ [newDesignerIp]))
                (IpAccessConfig.departmentIps (ipConfig p)))).

(** *** handleRemoveDesignerIp *)
Definition handleRemoveDesignerIp (p : Props) (ipToRemove : string) : IpAccessConfig.t :=
  IpAccessConfig.mk (Some (filter (λ ip, ip ≠ ipToRemove) (currentIps p)))
    (IpAccessConfig.departmentIps (ipConfig p)).

(** *** handleDeleteIpMapping *)
Definition handleDeleteIpMapping (p : Props) (ip : string) : IpAccessConfig.t :=
  IpAccessConfig.mk (IpAccessConfig.designerIps (ipConfig p))
    (delete ip (IpAccessConfig.departmentIps (ipConfig p))).

(** Deleting the mappings of several addresses, one click each. *)
Definition deleteIpMappings (p : Props) (ips : list string) : Props :=
  foldl (λ q ip, withIpConfig (handleDeleteIpMapping q ip) q) p ips.

(** *** handleFileSelect

    [files] is [e.target.files]; the preview arrives later, when the
    reader has loaded the file. *)
Definition handleFileSelect (files : list File) (st : State) : State :=
  match files with
  | file :: _ => setSelectedEmoji EmptyString (setAvatarFile (Some file) st)
  | [] => st
  end.

Definition previewLoaded (dataUrl : string) (st : State) : State :=
  setUploadPreview dataUrl st.

(** The avatar cell of the list of users: the emoji when the user has
    one, the image otherwise. *)
Inductive AvatarView : Type :=
  | showEmoji (emoji : string)
  | showImage (src : option string).

Definition avatarView (user : User.t) : AvatarView :=
  if JS.truthy (User.emoji user) then showEmoji (User.emoji user)
  else showImage (User.avatarUrl user).

(** *** handleDeleteAllClick

    The cell [isDeleteConfirming] and the number of timers set by
    [setTimeout] that have not fired yet. A click either asks for
    confirmation and sets a timer, or, when confirmation is pending,
    calls [onDeleteAllEvents]; a timer that fires withdraws the pending
    confirmation. Timers are never cleared. *)
Record Confirm : Type := mkConfirm {
  isDeleteConfirming : bool;
  pendingTimers : nat
}.

Inductive ConfirmEvent : Type :=
  | click
  | timerFires.

(** The new state, and whether [onDeleteAllEvents] was called. *)
Definition confirmStep (st : Confirm) (ev : ConfirmEvent) : Confirm * bool :=
  match ev with
  | click =>
      if isDeleteConfirming st then (mkConfirm false (pendingTimers st), true)
      else (mkConfirm true (S (pendingTimers st)), false)
  | timerFires =>
      match pendingTimers st with
      | S n => (mkConfirm false n, false)
      | O => (st, false)
      end
  end.

(** A run: for every event, whether it deleted all events. *)
Fixpoint confirmRun (st : Confirm) (evs : list ConfirmEvent) : list bool :=
  match evs with
  | [] => []
  | ev :: evs' => let '(st', deleted) := confirmStep st ev in deleted :: confirmRun st' evs'
  end.

Definition confirmInitial : Confirm := mkConfirm false 0.

(** *** The list of campaigns, newest first

    [[...events].sort((a, b) => b.date.getTime() - a.date.getTime())]:
    a stable sort; on valid dates the comparator is a consistent order
    and the result is the one of any stable sort, here by insertion from
    the right, an element going before the first one that is not newer. *)
Definition timeOf (d : JSDate) : Z :=
  match d with ValidDate t => t | InvalidDate => 0 end.

Fixpoint insertNewest {A : Type} (time : A → Z) (x : A) (sorted : list A) : list A :=
  match sorted with
  | [] => [x]
  | y :: rest =>
      if Z.leb (time y) (time x) then x :: sorted
      else y :: insertNewest time x rest
  end.

Definition sortNewestFirst {A : Type} (time : A → Z) (l : list A) : list A :=
  foldr (insertNewest time) [] l.

Definition isValidDate (d : JSDate) : bool :=
  match d with ValidDate _ => true | InvalidDate => false end.

(** With an Invalid Date in the list the comparator returns [NaN] and
    the order is left to the engine: [None]. *)
Definition sortedEvents (p : Props) : option (list CalendarEvent.t) :=
  if forallb (λ ev, isValidDate (CalendarEvent.date ev)) (events p)
  then Some (sortNewestFirst (λ ev, timeOf (CalendarEvent.date ev)) (events p))
  else None.

(** While confirmation is pending, the timer set by the click that asked
    for it has not fired yet. *)
Definition confirmInv (st : Confirm) : Prop :=
  isDeleteConfirming st = true → (0 < pendingTimers st)%nat.

(** *** Vocabulary for the statements on the import *)

Definition noQuote (s : string) : bool :=
  JS.allChars (λ c, negb (Ascii.eqb c JS.dquote)) s.

(** The first unit exists and is not white space. *)
Definition startsWithText (s : string) : bool :=
  match s with
  | String c _ => negb (JS.isWhiteSpace c)
  | EmptyString => false
  end.

End AdminPanel.

(** ** AnnouncementModal: the form and the sorted list *)

Module AnnouncementForm.

Record Cells : Type := mkCells {
  isAddMode : bool;
  newTitle : string;
  newContent : string
}.

(** [handleAdd]: the new cells and the arguments of [onAdd], if called. *)
Definition handleAdd (c : Cells) : Cells * option (string * string) :=
  if negb (JS.truthy (JS.trim (newTitle c))) || negb (JS.truthy (JS.trim (newContent c)))
  then (c, None)
  else (mkCells false EmptyString EmptyString,
        Some (JS.trim (newTitle c), JS.trim (newContent c))).

(** [[...announcements].sort((a, b) => b.createdAt.getTime() - a.createdAt.getTime())] *)
Definition sortedAnnouncements (announcements : list Announcement.t)
  : option (list Announcement.t) :=
  if forallb (λ a, AdminPanel.isValidDate (Announcement.createdAt a)) announcements
  then Some (AdminPanel.sortNewestFirst
               (λ a, AdminPanel.timeOf (Announcement.createdAt a)) announcements)
  else None.

(** First and last unit of a text. *)
Definition startsWithSpace (s : string) : bool :=
  match s with
  | String c _ => JS.isWhiteSpace c
  | EmptyString => false
  end.

Fixpoint endsWithSpace (s : string) : bool :=
  match s with
  | EmptyString => false
  | String c EmptyString => JS.isWhiteSpace c
  | String _ s' => endsWithSpace s'
  end.

End AnnouncementForm.

(** Sample values for the handlers above. *)
Module SamplePanel.
Import AdminModal AdminPanel.

Definition filledForm : State :=
  setSelectedEmoji "🦊"
    (setNewEmail "ayse@example.com" (setNewName "Ayşe Kaya" initialState)).

Definition summer : CalendarEvent.t :=
  CalendarEvent.mk "e4" "Yaz" (ValidDate 1719792000000) "Low" None None None.

Definition threeEvents : list CalendarEvent.t := [Sample.launch; summer; Sample.sale].

Definition eski : Announcement.t :=
  Announcement.mk "a1" "Eski" "Geçen haftanın duyurusu" (ValidDate 1704700000000) None.

Definition bakim : Announcement.t :=
  Announcement.mk "a2" "Bakım" "Sistem bakımı" (ValidDate Sample.lateEvening)
    (Some ["u2"]).

Definition toplanti : Announcement.t :=
  Announcement.mk "a3" "Toplantı" "Saat 15:00" (ValidDate (Sample.lateEvening - 3600000))
    (Some ["u1"]).

Definition threeAnnouncements : list Announcement.t := [eski; bakim; toplanti].

(** The sample configuration with one more elevated address, and with
    two more mappings. *)
Definition withNewAddress : IpAccessConfig.t :=
  IpAccessConfig.mk (Some ["10.0.0.9"; "10.0.0.8"]) {["10.0.0.1" := "d1"]}.

Definition withTwoMappings : IpAccessConfig.t :=
  IpAccessConfig.mk (Some ["10.0.0.9"])
    (<["10.0.0.3" := "d2"]> (<["10.0.0.2" := "d2"]> {["10.0.0.1" := "d1"]})).

(** The form of the mapping with one address. *)
Definition oneAddress : State := Sample.mappingForm "10.0.0.1" "d2".

End SamplePanel.

(** * Properties *)

(** ** Strings *)

Module JSFacts.
Import JS.

Lemma app_cons c s t : String c s +:+ t = String c (s +:+ t).
Proof. reflexivity. Qed.

Lemma app_nil_l s : EmptyString +:+ s = s.
Proof. reflexivity. Qed.

Lemma app_nil_r s : s +:+ EmptyString = s.
Proof. induction s as [|c s IH]; [done|]. by rewrite app_cons, IH. Qed.

Lemma app_assoc s t u : (s +:+ t) +:+ u = s +:+ t +:+ u.
Proof. induction s as [|c s IH]; [done|]. by rewrite !app_cons, IH. Qed.

Lemma app_snoc s c t : (s +:+ String c EmptyString) +:+ t = s +:+ String c t.
Proof. by rewrite app_assoc. Qed.

Lemma length_app s t :
  String.length (s +:+ t) = (String.length s + String.length t)%nat.
Proof. induction s as [|c s IH]; [done|]. rewrite app_cons. simpl. by rewrite IH. Qed.

Lemma allChars_app ok s t :
  allChars ok (s +:+ t) = allChars ok s && allChars ok t.
Proof.
  induction s as [|c s IH]; [done|].
  rewrite app_cons. simpl. rewrite IH. by rewrite andb_assoc.
Qed.

Lemma truthy_ne s : truthy s = true ↔ s ≠ EmptyString.
Proof. destruct s; simpl; split; intros; congruence. Qed.

Lemma truthy_false s : truthy s = false ↔ s = EmptyString.
Proof. destruct s; simpl; split; intros; congruence. Qed.

(** *** trim *)

Lemma trimEnd_empty s : trimEnd s = EmptyString → allChars isWhiteSpace s = true.
Proof.
  induction s as [|c s IH]; [done|]. simpl.
  destruct (trimEnd s) eqn:E; [|discriminate].
  destruct (isWhiteSpace c); [|discriminate]. intros _. by apply IH.
Qed.

Lemma trim_empty s : trim s = EmptyString → allChars isWhiteSpace s = true.
Proof.
  unfold trim. induction s as [|c s IH]; [done|]. simpl.
  destruct (isWhiteSpace c) eqn:E; [done|].
  intros H. apply trimEnd_empty in H. simpl in H. by rewrite E in H.
Qed.

Lemma trimEnd_snoc_keep s c :
  isWhiteSpace c = false →
  trimEnd s = s → trimEnd (String c s) = String c s.
Proof. intros Hc Hs. simpl. rewrite Hs. destruct s; [by rewrite Hc|done]. Qed.

(** A text whose last unit is not white space is left alone by [trimEnd]. *)
Lemma trimEnd_last s c :
  isWhiteSpace c = false →
  trimEnd (s +:+ String c EmptyString) = s +:+ String c EmptyString.
Proof.
  intros Hc. induction s as [|d s IH].
  - simpl. by rewrite Hc.
  - rewrite app_cons. simpl. rewrite IH.
    destruct (s +:+ String c EmptyString) eqn:E; [|done].
    destruct s; discriminate.
Qed.

Lemma trimEnd_last_nl s c :
  isWhiteSpace c = false →
  trimEnd (s +:+ String c (String newline EmptyString)) = s +:+ String c EmptyString.
Proof.
  intros Hc. induction s as [|d s IH].
  - simpl. by rewrite Hc.
  - rewrite !app_cons. simpl. rewrite IH.
    destruct (s +:+ String c EmptyString) eqn:E; [|done].
    destruct s; discriminate.
Qed.

Lemma trimStart_first c s :
  isWhiteSpace c = false → trimStart (String c s) = String c s.
Proof. intros Hc. simpl. by rewrite Hc. Qed.

(** *** split *)

Lemma split_nonempty sep s : split sep s ≠ [].
Proof.
  induction s as [|c s IH]; [done|]. simpl.
  destruct (Ascii.eqb c sep); [done|]. by destruct (split sep s).
Qed.

Lemma split_single sep s :
  allChars (λ c, negb (Ascii.eqb c sep)) s = true → split sep s = [s].
Proof.
  induction s as [|c s IH]; [done|]. simpl.
  intros [Hc Hs]%andb_prop. apply negb_true_iff in Hc. rewrite Hc.
  by rewrite IH.
Qed.

Lemma split_app sep s rest :
  allChars (λ c, negb (Ascii.eqb c sep)) s = true →
  split sep (s +:+ String sep rest) = s :: split sep rest.
Proof.
  induction s as [|c s IH].
  - intros _. rewrite app_nil_l. simpl. by rewrite Ascii.eqb_refl.
  - simpl. intros [Hc Hs]%andb_prop. apply negb_true_iff in Hc.
    rewrite Hc. by rewrite IH.
Qed.

Lemma split_length_one sep s :
  allChars (λ c, negb (Ascii.eqb c sep)) s = true → length (split sep s) = 1%nat.
Proof. intros H. by rewrite split_single. Qed.

(** *** quoting *)

Lemma collapse_other c s :
  Ascii.eqb c dquote = false → collapseQuotes (String c s) = String c (collapseQuotes s).
Proof. intros E. destruct s as [|d r]; [done|]. simpl. by rewrite E. Qed.

Lemma collapse_double s : collapseQuotes (doubleQuotes s) = s.
Proof.
  induction s as [|c s IH]; [done|].
  simpl doubleQuotes. destruct (Ascii.eqb c dquote) eqn:E.
  - apply Ascii.eqb_eq in E. subst c.
    change (collapseQuotes (String dquote (String dquote (doubleQuotes s))))
      with (String dquote (collapseQuotes (doubleQuotes s))).
    by rewrite IH.
  - by rewrite collapse_other, IH.
Qed.

Lemma stripTrailingQuote_snoc s :
  stripTrailingQuote (s +:+ String dquote EmptyString) = s.
Proof.
  induction s as [|c s IH]; [done|].
  rewrite app_cons. simpl. rewrite IH.
  destruct (s +:+ String dquote EmptyString) eqn:E; [|done].
  destruct s; discriminate.
Qed.

Lemma collapse_noquote s :
  allChars (λ c, negb (Ascii.eqb c dquote)) s = true → collapseQuotes s = s.
Proof.
  induction s as [|c s IH]; [done|]. simpl allChars.
  intros [Hc Hs]%andb_prop. apply negb_true_iff in Hc.
  rewrite collapse_other by done. f_equal. by apply IH.
Qed.

Lemma stripTrailingQuote_noquote s :
  allChars (λ c, negb (Ascii.eqb c dquote)) s = true → stripTrailingQuote s = s.
Proof.
  induction s as [|c s IH]; [done|]. simpl.
  intros [Hc Hs]%andb_prop. apply negb_true_iff in Hc.
  destruct s as [|d s']; [by rewrite Hc|]. f_equal. by apply IH.
Qed.

Lemma stripQuotes_noquote s :
  allChars (λ c, negb (Ascii.eqb c dquote)) s = true → stripQuotes s = s.
Proof.
  intros H. unfold stripQuotes.
  assert (stripLeadingQuote s = s) as ->.
  { destruct s as [|c s]; [done|]. simpl in *.
    apply andb_prop in H as [Hc _]. apply negb_true_iff in Hc. by rewrite Hc. }
  by apply stripTrailingQuote_noquote.
Qed.

Lemma bare_noquote s :
  bare s = true → allChars (λ c, negb (Ascii.eqb c dquote)) s = true.
Proof.
  induction s as [|c s IH]; [done|]. simpl.
  intros [[[H1 H2]%andb_prop H3]%andb_prop Hs]%andb_prop.
  rewrite H1. simpl. by apply IH.
Qed.

Lemma bare_noLineFeed s : bare s = true → noLineFeed s = true.
Proof.
  unfold noLineFeed. induction s as [|c s IH]; [done|]. simpl.
  intros [[[H1 H2]%andb_prop H3]%andb_prop Hs]%andb_prop.
  rewrite H3. simpl. by apply IH.
Qed.

Lemma noLineFeed_double s : noLineFeed s = true → noLineFeed (doubleQuotes s) = true.
Proof.
  unfold noLineFeed. induction s as [|c s IH]; [done|]. simpl.
  intros [Hc Hs]%andb_prop.
  destruct (Ascii.eqb c dquote) eqn:E; simpl; rewrite ?Hc, ?IH; done.
Qed.

End JSFacts.

(** ** The field scanner *)

Module ScanFacts.
Import JS JSFacts AdminModal.

Lemma get_app_length p c q : String.get (String.length p) (p +:+ String c q) = Some c.
Proof. induction p as [|d p IH]; [done|]. rewrite app_cons. simpl. exact IH. Qed.

Lemma substring_zero_len n s : String.substring n 0 s = EmptyString.
Proof.
  revert n. induction s as [|c s IH]; intros [|n]; simpl; done.
Qed.

Lemma substring_app_prefix n p q :
  (n ≤ String.length p)%nat →
  String.substring n (String.length p - n) (p +:+ q)
  = String.substring n (String.length p - n) p.
Proof.
  revert n. induction p as [|c p IH]; intros n Hn.
  - simpl in Hn. assert (n = 0%nat) as -> by lia. simpl.
    by rewrite !substring_zero_len.
  - rewrite app_cons. destruct n as [|n].
    + simpl. f_equal. specialize (IH 0%nat). rewrite Nat.sub_0_r in IH.
      apply IH. lia.
    + simpl. apply IH. simpl in Hn. lia.
Qed.

Lemma substring_snoc n p c :
  (n ≤ String.length p)%nat →
  String.substring n (S (String.length p) - n) (p +:+ String c EmptyString)
  = String.substring n (String.length p - n) p +:+ String c EmptyString.
Proof.
  revert n. induction p as [|d p IH]; intros n Hn.
  - simpl in Hn. assert (n = 0%nat) as -> by lia. done.
  - rewrite app_cons. destruct n as [|n].
    + specialize (IH 0%nat). rewrite !Nat.sub_0_r in IH.
      simpl. rewrite app_cons. f_equal. apply IH. lia.
    + simpl in Hn. simpl String.length.
      replace (S (S (String.length p)) - S n)%nat with (S (String.length p) - n)%nat by lia.
      replace (S (String.length p) - S n)%nat with (String.length p - n)%nat by lia.
      change (String.substring (S n) (S (String.length p) - n)
                (String d (p +:+ String c EmptyString)))
        with (String.substring n (S (String.length p) - n) (p +:+ String c EmptyString)).
      change (String.substring (S n) (String.length p - n) (String d p))
        with (String.substring n (String.length p - n) p).
      apply IH. lia.
Qed.

Lemma scan_loop q : ∀ p res s0 inQ,
  (s0 ≤ String.length p)%nat →
  let st := foldl (parseCSVLine_step (p +:+ q)) (mkScan res s0 inQ)
                  (seq (String.length p) (String.length q)) in
  result st ++ [cleanField (JS.substring (start st) (String.length (p +:+ q)) (p +:+ q))]
  = res ++ scanFields q (JS.substring s0 (String.length p) p) inQ.
Proof.
  induction q as [|c q IH]; intros p res s0 inQ Hs0.
  - simpl. by rewrite app_nil_r.
  - cbn zeta. simpl String.length. simpl seq. simpl foldl.
    assert (Hlen : String.length (p +:+ String c EmptyString) = S (String.length p)).
    { rewrite length_app. simpl. lia. }
    assert (Hstep : parseCSVLine_step (p +:+ String c q) (mkScan res s0 inQ)
                      (String.length p)
                    = if Ascii.eqb c dquote then mkScan res s0 (negb inQ)
                      else if Ascii.eqb c comma && negb inQ
                      then mkScan (res ++ [cleanField (JS.substring s0 (String.length p) p)])
                             (S (String.length p)) inQ
                      else mkScan res s0 inQ).
    { unfold parseCSVLine_step. rewrite get_app_length. simpl.
      destruct (Ascii.eqb c dquote); [done|].
      destruct (Ascii.eqb c comma && negb inQ); [|done].
      do 4 f_equal. unfold JS.substring. by apply substring_app_prefix. }
    rewrite Hstep. clear Hstep.
    rewrite <- (app_snoc p c q), <- Hlen.
    simpl scanFields.
    destruct (Ascii.eqb c dquote) eqn:Eq.
    + rewrite (IH (p +:+ String c EmptyString) res s0 (negb inQ)) by lia.
      do 2 f_equal.
      unfold JS.substring. rewrite Hlen. by apply substring_snoc.
    + destruct (Ascii.eqb c comma && negb inQ) eqn:Ec.
      * rewrite (IH (p +:+ String c EmptyString) _ _ inQ) by lia.
        rewrite <- List.app_assoc. simpl. do 3 f_equal.
        unfold JS.substring. rewrite Nat.sub_diag.
        apply substring_zero_len.
      * rewrite (IH (p +:+ String c EmptyString) res s0 inQ) by lia.
        do 2 f_equal.
        unfold JS.substring. rewrite Hlen. by apply substring_snoc.
Qed.

(** The loop of [parseCSVLine] computes what the recursive scanner does. *)
Lemma parseCSVLine_scanFields line :
  parseCSVLine line = scanFields line EmptyString false.
Proof.
  unfold parseCSVLine.
  pose proof (scan_loop line EmptyString [] 0%nat false) as H.
  rewrite !app_nil_l in H. simpl String.length in H. apply H. lia.
Qed.

Lemma scan_double v : ∀ rest cur,
  scanFields (doubleQuotes v +:+ rest) cur true
  = scanFields rest (cur +:+ doubleQuotes v) true.
Proof.
  induction v as [|c v IH]; intros rest cur.
  - simpl doubleQuotes. by rewrite app_nil_l, app_nil_r.
  - simpl doubleQuotes. destruct (Ascii.eqb c dquote) eqn:E.
    + rewrite !app_cons. simpl scanFields. rewrite ?Ascii.eqb_refl. simpl negb.
      rewrite IH. by rewrite !app_snoc.
    + rewrite app_cons. simpl scanFields. rewrite E, andb_false_r.
      rewrite IH. by rewrite app_snoc.
Qed.

Lemma scan_safe v rest cur :
  scanFields (safe v +:+ rest) cur false = scanFields rest (cur +:+ safe v) false.
Proof.
  unfold safe, quoteMark. rewrite !app_assoc, app_cons, app_nil_l.
  simpl scanFields. rewrite ?Ascii.eqb_refl. simpl negb.
  rewrite scan_double. rewrite app_cons, app_nil_l. simpl scanFields.
  rewrite ?Ascii.eqb_refl. simpl negb. by rewrite !app_assoc.
Qed.

Lemma scan_bare s : ∀ rest cur inQ,
  bare s = true →
  scanFields (s +:+ rest) cur inQ = scanFields rest (cur +:+ s) inQ.
Proof.
  induction s as [|c s IH]; intros rest cur inQ H.
  - by rewrite app_nil_l, app_nil_r.
  - simpl in H. apply andb_prop in H as [[[H1 H2]%andb_prop H3]%andb_prop Hs].
    apply negb_true_iff in H1, H2.
    rewrite app_cons. simpl scanFields. rewrite H1, H2. simpl.
    rewrite IH by done. by rewrite app_snoc.
Qed.

Lemma scan_comma rest cur :
  scanFields (String comma rest) cur false
  = cleanField cur :: scanFields rest EmptyString false.
Proof. done. Qed.

Lemma cleanField_safe v : cleanField (safe v) = v.
Proof.
  unfold cleanField, stripQuotes, safe, quoteMark.
  rewrite app_cons, app_nil_l. simpl stripLeadingQuote. rewrite ?Ascii.eqb_refl.
  by rewrite stripTrailingQuote_snoc, collapse_double.
Qed.

Lemma cleanField_bare s : bare s = true → cleanField s = s.
Proof.
  intros H%bare_noquote. unfold cleanField.
  by rewrite stripQuotes_noquote, collapse_noquote.
Qed.

(** A wrapped value is read back as one field, whatever it contains. *)
Lemma parseCSVLine_safe v : parseCSVLine (safe v) = [v].
Proof.
  rewrite parseCSVLine_scanFields.
  rewrite <- (app_nil_r (safe v)), scan_safe, app_nil_l.
  simpl. by rewrite cleanField_safe.
Qed.

Lemma parseCSVLine_row t d u de dp us :
  bare d = true → bare u = true →
  parseCSVLine (JS.join "," [safe t; d; u; safe de; safe dp; safe us])
  = [t; d; u; de; dp; us].
Proof.
  intros Hd Hu. rewrite parseCSVLine_scanFields.
  unfold JS.join. simpl String.concat.
  change (String.append ?a ?b) with (a +:+ b).
  rewrite scan_safe, app_nil_l. rewrite app_cons, app_nil_l, scan_comma, cleanField_safe.
  f_equal.
  rewrite scan_bare, app_nil_l by done.
  rewrite app_cons, app_nil_l, scan_comma, cleanField_bare by done. f_equal.
  rewrite scan_bare, app_nil_l by done.
  rewrite app_cons, app_nil_l, scan_comma, cleanField_bare by done. f_equal.
  rewrite scan_safe, app_nil_l. rewrite app_cons, app_nil_l, scan_comma, cleanField_safe.
  f_equal.
  rewrite scan_safe, app_nil_l. rewrite app_cons, app_nil_l, scan_comma, cleanField_safe.
  f_equal.
  rewrite <- (app_nil_r (safe us)), scan_safe, app_nil_l.
  simpl. by rewrite cleanField_safe.
Qed.

End ScanFacts.

(** ** Names and identifiers *)

Module ResolveFacts.
Import AdminModal.

Lemma NoDup_fmap_inj {A B} (f : A → B) (l : list A) x y :
  NoDup (f <$> l) → x ∈ l → y ∈ l → f x = f y → x = y.
Proof.
  induction l as [|a l IH]; intros Hnd Hx Hy Hf.
  - by apply elem_of_nil in Hx.
  - rewrite fmap_cons in Hnd. apply NoDup_cons in Hnd as [Ha Hnd].
    apply elem_of_cons in Hx as [->|Hx]; apply elem_of_cons in Hy as [->|Hy].
    + done.
    + exfalso. apply Ha. rewrite Hf. by apply list_elem_of_fmap_2.
    + exfalso. apply Ha. rewrite <- Hf. by apply list_elem_of_fmap_2.
    + by apply IH.
Qed.

Section Resolve.
Context {A : Type} (id name : A → string) (l : list A).

Local Abbreviation nameOf oid :=
  (orEmpty (name <$> find (λ x, bool_decide (Some (id x) = oid)) l)).
Local Abbreviation idOf oname :=
  (id <$> find (λ x, bool_decide (Some (name x) = oname)) l).

Lemma nameOf_None : nameOf None = EmptyString.
Proof.
  destruct (find _ l) as [d|] eqn:F; [|done].
  apply find_some in F as [_ F]. by apply bool_decide_eq_true in F.
Qed.

Lemma nameOf_found oid :
  (∃ x, x ∈ l ∧ Some (id x) = oid) →
  ∃ x, x ∈ l ∧ Some (id x) = oid ∧ nameOf oid = name x.
Proof.
  intros (x & Hx & Hid).
  destruct (find (λ x, bool_decide (Some (id x) = oid)) l) as [y|] eqn:F.
  - apply find_some in F as [Hy Hp]. apply bool_decide_eq_true in Hp.
    exists y. by rewrite list_elem_of_In.
  - apply list_elem_of_In in Hx. pose proof (find_none _ _ F x Hx) as Hc.
    simpl in Hc. by rewrite bool_decide_eq_false in Hc.
Qed.

Lemma nameOf_dangling oid :
  (∀ x, x ∈ l → Some (id x) ≠ oid) → nameOf oid = EmptyString.
Proof.
  intros Hno.
  destruct (find (λ x, bool_decide (Some (id x) = oid)) l) as [y|] eqn:F; [|done].
  apply find_some in F as [Hy Hp]. apply bool_decide_eq_true in Hp.
  apply list_elem_of_In in Hy. by destruct (Hno y Hy).
Qed.

Lemma nameOf_idOf oid :
  NoDup (id <$> l) → nameOf (idOf (Some (nameOf oid))) = nameOf oid.
Proof.
  intros Hnd.
  destruct (find (λ x, bool_decide (Some (name x) = Some (nameOf oid))) l)
    as [d'|] eqn:F; simpl.
  - apply find_some in F as [Hin' Hn'].
    apply bool_decide_eq_true in Hn'. injection Hn' as Hn'.
    destruct (find (λ x, bool_decide (Some (id x) = Some (id d'))) l) as [d''|] eqn:G.
    + apply find_some in G as [Hin'' Hid].
      apply bool_decide_eq_true in Hid. injection Hid as Hid.
      assert (d'' = d') as ->.
      { apply (NoDup_fmap_inj id l); [done| | |done]; by apply list_elem_of_In. }
      exact Hn'.
    + pose proof (find_none _ _ G d' Hin') as Hc. simpl in Hc.
      by rewrite bool_decide_eq_false in Hc.
  - etrans; [apply nameOf_None|].
    destruct (find (λ x, bool_decide (Some (id x) = oid)) l) as [d|] eqn:G; [|done].
    apply find_some in G as [Hin _]. simpl in *.
    pose proof (find_none _ _ F d Hin) as Hc. simpl in Hc.
    by rewrite bool_decide_eq_false in Hc.
Qed.
End Resolve.

Lemma deptName_back deps oid :
  NoDup (Department.id <$> deps) →
  deptNameOf deps (deptIdOf deps (Some (deptNameOf deps oid))) = deptNameOf deps oid.
Proof. apply (nameOf_idOf Department.id Department.name). Qed.

Lemma userName_back us oid :
  NoDup (User.id <$> us) →
  userNameOf us (userIdOf us (Some (userNameOf us oid))) = userNameOf us oid.
Proof. apply (nameOf_idOf User.id User.name). Qed.

End ResolveFacts.

(** ** Export followed by import *)

Module RoundTripFacts.
Import JS JSFacts AdminModal ScanFacts ResolveFacts.

Section WithRuntime.
Context {rt : Runtime}.

Lemma exportFields_valid p ev t :
  CalendarEvent.date ev = ValidDate t →
  exportFields p ev
  = Some [safe (CalendarEvent.title ev); formatYmd t; CalendarEvent.urgency ev;
          safe (orEmpty (CalendarEvent.description ev));
          safe (deptNameOf (departments p) (CalendarEvent.departmentId ev));
          safe (userNameOf (users p) (CalendarEvent.assigneeId ev))].
Proof. intros H. unfold exportFields. by rewrite H. Qed.

Lemma exportLine_valid p ev t :
  CalendarEvent.date ev = ValidDate t →
  exportLine p ev = Some (rowText p ev (dateText ev) +:+ nl).
Proof.
  intros H. unfold exportLine. rewrite (exportFields_valid p ev t H).
  unfold rowText, dateText. by rewrite H.
Qed.

Lemma export_fold p evs : ∀ acc,
  Forall (λ ev, ∃ t, CalendarEvent.date ev = ValidDate t) evs →
  foldl (λ acc ev, csvContent ← acc; line ← exportLine p ev; Some (csvContent +:+ line))
        (Some acc) evs
  = Some (acc +:+ unlines ((λ ev, rowText p ev (dateText ev)) <$> evs)).
Proof.
  induction evs as [|ev evs IH]; intros acc Hv.
  - simpl. by rewrite app_nil_r.
  - apply Forall_cons in Hv as [[t Ht] Hv]. simpl foldl.
    rewrite (exportLine_valid p ev t Ht). simpl.
    rewrite IH by done. by rewrite !app_assoc.
Qed.

(** The exported text: the header line, then one line per event. *)
Lemma handleExportCSV_text p :
  Forall (λ ev, ∃ t, CalendarEvent.date ev = ValidDate t) (events p) →
  handleExportCSV p
  = Some (csvHeader +:+ nl
          +:+ unlines ((λ ev, rowText p ev (dateText ev)) <$> events p)).
Proof. intros H. unfold handleExportCSV. rewrite export_fold by done. by rewrite app_assoc. Qed.

(** *** One line *)

Lemma endsWithQuote_app s t :
  t ≠ EmptyString → endsWithQuote (s +:+ t) = endsWithQuote t.
Proof.
  intros Ht. induction s as [|c s IH]; [done|].
  rewrite app_cons. simpl. rewrite IH.
  destruct (s +:+ t) eqn:E; [|done]. destruct s; [|discriminate].
  by rewrite app_nil_l in E.
Qed.

Lemma endsWithQuote_snoc s :
  endsWithQuote s = true → ∃ z, s = z +:+ String dquote EmptyString.
Proof.
  induction s as [|c s IH]; [done|]. simpl. destruct s as [|d s'].
  - intros ->%Ascii.eqb_eq. by exists EmptyString.
  - intros [z Hz]%IH. exists (String c z). by rewrite app_cons, <- Hz.
Qed.

Lemma endsWithQuote_safe v : endsWithQuote (safe v) = true.
Proof. unfold safe. rewrite <- app_assoc. by rewrite endsWithQuote_app. Qed.

Lemma trimEnd_quote s : endsWithQuote s = true → trimEnd s = s.
Proof. intros [z ->]%endsWithQuote_snoc. by apply trimEnd_last. Qed.

Lemma trimEnd_quote_nl s : endsWithQuote s = true → trimEnd (s +:+ nl) = s.
Proof.
  intros [z ->]%endsWithQuote_snoc. unfold nl. rewrite app_snoc.
  by apply trimEnd_last_nl.
Qed.

Lemma rowText_ends p ev d : endsWithQuote (rowText p ev d) = true.
Proof.
  unfold rowText, JS.join. simpl String.concat.
  change (String.append ?a ?b) with (a +:+ b).
  rewrite <- !app_assoc. unfold safe at 4. rewrite <- !app_assoc.
  by rewrite endsWithQuote_app.
Qed.

Lemma rowText_starts p ev d : ∃ rest, rowText p ev d = String dquote rest.
Proof. unfold rowText, JS.join, safe, quoteMark. simpl String.concat. eauto. Qed.

Lemma trim_rowText p ev d : trim (rowText p ev d) = rowText p ev d.
Proof.
  unfold trim. destruct (rowText_starts p ev d) as [rest E].
  rewrite E, trimStart_first by done. rewrite <- E.
  apply trimEnd_quote, rowText_ends.
Qed.

Lemma noLineFeed_safe v : noLineFeed v = true → noLineFeed (safe v) = true.
Proof.
  intros H. unfold safe, noLineFeed. rewrite !allChars_app.
  fold (noLineFeed (doubleQuotes v)). by rewrite noLineFeed_double.
Qed.

Lemma noLineFeed_rowText p ev d :
  noLineFeed (CalendarEvent.title ev) = true →
  noLineFeed d = true →
  noLineFeed (CalendarEvent.urgency ev) = true →
  noLineFeed (orEmpty (CalendarEvent.description ev)) = true →
  noLineFeed (deptNameOf (departments p) (CalendarEvent.departmentId ev)) = true →
  noLineFeed (userNameOf (users p) (CalendarEvent.assigneeId ev)) = true →
  noLineFeed (rowText p ev d) = true.
Proof.
  intros H1 H2 H3 H4 H5 H6. unfold rowText, JS.join. simpl String.concat.
  change (String.append ?a ?b) with (a +:+ b).
  unfold noLineFeed in *. rewrite !allChars_app.
  fold (noLineFeed (safe (CalendarEvent.title ev))).
  fold (noLineFeed (safe (orEmpty (CalendarEvent.description ev)))).
  fold (noLineFeed (safe (deptNameOf (departments p) (CalendarEvent.departmentId ev)))).
  fold (noLineFeed (safe (userNameOf (users p) (CalendarEvent.assigneeId ev)))).
  rewrite !noLineFeed_safe by done. by rewrite H2, H3.
Qed.

(** An exported line is read back field by field. *)
Lemma importLine_rowText p ev d :
  bare d = true → bare (CalendarEvent.urgency ev) = true →
  importLine p (rowText p ev d)
  = Some (PartialEvent.mk (CalendarEvent.title ev) (newDate d)
            (coerceUrgency (CalendarEvent.urgency ev))
            (Some (orEmpty (CalendarEvent.description ev)))
            (deptIdOf (departments p)
               (Some (deptNameOf (departments p) (CalendarEvent.departmentId ev))))
            (userIdOf (users p)
               (Some (userNameOf (users p) (CalendarEvent.assigneeId ev))))).
Proof.
  intros Hd Hu. unfold importLine. rewrite trim_rowText.
  destruct (rowText_starts p ev d) as [rest E]. rewrite E at 1. simpl truthy. simpl negb.
  cbv iota. unfold rowText. rewrite parseCSVLine_row by done. done.
Qed.

(** *** The whole text *)

Lemma unlines_join rows :
  rows ≠ [] → unlines rows = JS.join nl rows +:+ nl.
Proof.
  induction rows as [|r rows IH]; [done|]. intros _.
  destruct rows as [|r' rows].
  - simpl. by rewrite app_nil_r.
  - change (unlines (r :: r' :: rows)) with (r +:+ nl +:+ unlines (r' :: rows)).
    rewrite IH by done.
    change (JS.join nl (r :: r' :: rows)) with (r +:+ nl +:+ JS.join nl (r' :: rows)).
    by rewrite !app_assoc.
Qed.

Lemma endsWithQuote_join rows :
  rows ≠ [] → Forall (λ r, endsWithQuote r = true) rows →
  endsWithQuote (JS.join nl rows) = true.
Proof.
  induction rows as [|r rows IH]; [done|]. intros _ [Hr Hrows]%Forall_cons.
  destruct rows as [|r' rows]; [done|].
  change (JS.join nl (r :: r' :: rows)) with (r +:+ nl +:+ JS.join nl (r' :: rows)).
  assert (Hne : JS.join nl (r' :: rows) ≠ EmptyString).
  { intros E. specialize (IH ltac:(done) Hrows). by rewrite E in IH. }
  rewrite <- app_assoc. rewrite endsWithQuote_app by done. by apply IH.
Qed.

Lemma split_join rows :
  rows ≠ [] → Forall (λ r, noLineFeed r = true) rows →
  split newline (JS.join nl rows) = rows.
Proof.
  induction rows as [|r rows IH]; [done|]. intros _ [Hr Hrows]%Forall_cons.
  destruct rows as [|r' rows]; [by apply split_single|].
  change (JS.join nl (r :: r' :: rows))
    with (r +:+ String newline (JS.join nl (r' :: rows))).
  rewrite split_app by done. f_equal. by apply IH.
Qed.

(** Trimming the exported text only removes its last line feed, and the
    lines of what is left are the header and the rows. *)
Lemma lines_of_export rows :
  rows ≠ [] →
  Forall (λ r, endsWithQuote r = true) rows →
  Forall (λ r, noLineFeed r = true) rows →
  let text := trim (csvHeader +:+ nl +:+ unlines rows) in
  JS.truthy text = true ∧ split newline text = csvHeader :: rows.
Proof.
  intros Hne Hq Hnl text.
  assert (Htext : text = csvHeader +:+ nl +:+ JS.join nl rows).
  { unfold text, trim. rewrite unlines_join by done.
    assert (trimStart (csvHeader +:+ nl +:+ JS.join nl rows +:+ nl)
            = csvHeader +:+ nl +:+ JS.join nl rows +:+ nl) as -> by done.
    rewrite <- !app_assoc. rewrite trimEnd_quote_nl; [done|].
    rewrite endsWithQuote_app; [by apply endsWithQuote_join|].
    intros E. pose proof (endsWithQuote_join rows Hne Hq) as H. by rewrite E in H. }
  rewrite Htext. split; [done|].
  change (csvHeader +:+ nl +:+ JS.join nl rows)
    with (csvHeader +:+ String newline (JS.join nl rows)).
  rewrite split_app by done. f_equal. by apply split_join.
Qed.

Lemma omap_fmap_Some {A B C} (f : A → B) (g : B → option C) (h : A → C) l :
  Forall (λ x, g (f x) = Some (h x)) l → omap g (f <$> l) = h <$> l.
Proof.
  induction l as [|x l IH]; [done|]. intros [Hx Hl]%Forall_cons.
  rewrite !fmap_cons. simpl omap. rewrite Hx. f_equal. by apply IH.
Qed.

End WithRuntime.
End RoundTripFacts.

(** ** The import handler *)

Module ImportFacts.
Import JS JSFacts AdminModal ScanFacts.

Section WithRuntime.
Context {rt : Runtime}.

Lemma scanFields_nonempty s : ∀ cur inQ, scanFields s cur inQ ≠ [].
Proof.
  induction s as [|c s IH]; intros cur inQ; simpl; [done|].
  destruct (Ascii.eqb c dquote); [apply IH|].
  destruct (Ascii.eqb c comma && negb inQ); [done|apply IH].
Qed.

(** The loop body, in one piece: a line is dropped exactly when it has
    fewer than three fields (a blank line has one). *)
Lemma importLine_cols p rawLine :
  let cols := parseCSVLine (trim rawLine) in
  importLine p rawLine
  = if (length cols <? 3)%nat then None
    else Some (PartialEvent.mk
                 (default EmptyString (cols !! 0%nat))
                 (newDate (default EmptyString (cols !! 1%nat)))
                 (coerceUrgency (default EmptyString (cols !! 2%nat)))
                 (cols !! 3%nat)
                 (deptIdOf (departments p) (cols !! 4%nat))
                 (userIdOf (users p) (cols !! 5%nat))).
Proof.
  unfold importLine. destruct (trim rawLine) as [|c s] eqn:E; [done|]. done.
Qed.

Lemma importLine_None p rawLine :
  importLine p rawLine = None ↔ (length (parseCSVLine (trim rawLine)) < 3)%nat.
Proof.
  rewrite importLine_cols. cbv zeta.
  destruct (length (parseCSVLine (trim rawLine)) <? 3)%nat eqn:E.
  - apply Nat.ltb_lt in E. done.
  - apply Nat.ltb_ge in E. split; [done|lia].
Qed.

(** Past the two guards the handler calls [onBulkAddEvents] once, with
    the records of the lines after the first. *)
Lemma handleImportCSV_call p st :
  let lines := split newline (trim (importText st)) in
  (2 ≤ length lines)%nat →
  (handleImportCSV p st).2 = Some (onBulkAddEvents (omap (importLine p) (tail lines)))
  ∧ (onBulkAddEventsRejects (omap (importLine p) (tail lines)) = None →
     (handleImportCSV p st).1 = setError EmptyString (setImportText EmptyString st)).
Proof.
  intros lines Hlen. unfold handleImportCSV. fold lines.
  destruct (trim (importText st)) as [|c s] eqn:E.
  { subst lines. simpl in Hlen. lia. }
  simpl truthy. simpl negb. cbv iota.
  assert ((length lines <? 2)%nat = false) as -> by (apply Nat.ltb_ge; lia).
  destruct (onBulkAddEventsRejects _); done.
Qed.

End WithRuntime.
End ImportFacts.

(** ** The announcement board *)

Module AnnouncementFacts.
Import JS JSFacts AnnouncementModal.

Lemma omap_if_filter {A B} (f : A → B) (test : A → bool) (l : list A) :
  omap (λ x, if test x then Some (f x) else None) l
  = f <$> filter (λ x, test x = true) l.
Proof.
  induction l as [|x l IH]; [done|]. simpl omap. rewrite filter_cons.
  destruct (test x) eqn:E.
  - rewrite decide_True by done. rewrite fmap_cons. f_equal. exact IH.
  - rewrite decide_False by congruence. exact IH.
Qed.

Section WithRuntime.
Context {rt : Runtime}.

Lemma isUnread_Some now a id :
  isUnread now a (Some id)
  = truthy id && (isToday now (Announcement.createdAt a) && negb (readByIncludes a id)).
Proof.
  unfold isUnread.
  destruct (isToday now (Announcement.createdAt a)), (truthy id); done.
Qed.

Lemma isUnread_None now a : isUnread now a None = false.
Proof. unfold isUnread. apply andb_false_r. Qed.

(** The effect marks exactly the announcements that are unread. *)
Lemma markUnreadEffect_filter now isOpen sortedAnnouncements viewer :
  markUnreadEffect now isOpen sortedAnnouncements viewer
  = if isOpen
    then Announcement.id
           <$> filter (λ b, isUnread now b viewer = true) sortedAnnouncements
    else [].
Proof.
  unfold markUnreadEffect. destruct isOpen; [|done]. simpl andb.
  destruct viewer as [id|]; simpl userIdTruthy.
  - destruct (truthy id) eqn:Hid.
    + rewrite omap_if_filter. f_equal. apply list_filter_iff. intros b.
      rewrite isUnread_Some, Hid. done.
    + symmetry. rewrite (list_filter_iff _ (λ _, False)).
      * by induction sortedAnnouncements.
      * intros b. rewrite isUnread_Some, Hid. done.
  - symmetry. rewrite (list_filter_iff _ (λ _, False)).
    + by induction sortedAnnouncements.
    + intros b. rewrite isUnread_None. done.
Qed.

End WithRuntime.
End AnnouncementFacts.

(** ** The access table *)

Module IpFacts.
Import JS JSFacts AdminModal.

Lemma splitRuns_go_separators isSep s :
  allChars isSep s = true →
  ∀ cur inRun,
    Forall (λ piece, piece = cur ∨ piece = EmptyString) (splitRuns_go isSep s cur inRun).
Proof.
  induction s as [|c s IH]; intros Hall cur inRun.
  - apply Forall_cons_2; [by left|apply Forall_nil_2].
  - simpl in Hall. apply andb_prop in Hall as [Hc Hs]. simpl. rewrite Hc.
    assert (Hrest : Forall (λ piece, piece = cur ∨ piece = EmptyString)
                      (splitRuns_go isSep s EmptyString true)).
    { eapply Forall_impl; [exact (IH Hs EmptyString true)|]. intros piece [->| ->]; by right. }
    destruct inRun; [exact Hrest|]. apply Forall_cons_2; [by left|exact Hrest].
Qed.

Lemma allChars_impl (ok ok' : ascii → bool) s :
  (∀ c, ok c = true → ok' c = true) → allChars ok s = true → allChars ok' s = true.
Proof.
  intros Himpl. induction s as [|c s IH]; [done|]. simpl.
  intros [Hc Hs]%andb_prop. by rewrite (Himpl c Hc), IH.
Qed.

(** A blank text names no address. *)
Lemma ipsToAdd_blank text : trim text = EmptyString → ipsToAdd text = [].
Proof.
  intros Hblank%trim_empty. unfold ipsToAdd, splitRuns.
  assert (Hsep : allChars isIpSeparator text = true).
  { eapply allChars_impl; [|exact Hblank]. intros c Hc. unfold isIpSeparator.
    rewrite Hc. apply orb_true_r. }
  pose proof (splitRuns_go_separators isIpSeparator text Hsep EmptyString false) as Hall.
  induction Hall as [|piece pieces Hpiece _ IH]; [done|].
  rewrite filter_cons. rewrite decide_False; [exact IH|].
  intros Hne. by destruct Hpiece as [->| ->].
Qed.

(** The map built by the [forEach] of the handler. *)
Lemma lookup_foldl_insert (deptId : string) (ips : list string) :
  ∀ (m : gmap string string) (ip : string),
    foldl (λ m ip, <[ip := deptId]> m) m ips !! ip
    = if decide (ip ∈ ips) then Some deptId else m !! ip.
Proof.
  induction ips as [|x ips IH]; intros m ip.
  - case_decide as Hin; [by apply elem_of_nil in Hin|done].
  - simpl foldl. rewrite IH.
    destruct (decide (ip ∈ ips)) as [Hin|Hnotin].
    + by rewrite decide_True by (rewrite elem_of_cons; tauto).
    + destruct (decide (ip = x)) as [->|Hne].
      * rewrite decide_True by (rewrite elem_of_cons; tauto). apply lookup_insert_eq.
      * rewrite decide_False by (rewrite elem_of_cons; tauto).
        by apply lookup_insert_ne.
Qed.

(** With non-empty identifiers stored, [departmentIps[ip]] is truthy for
    the keys of the object and for the names it inherits. *)
Lemma ipMapped_true (m : gmap string string) ip :
  (∀ ip deptId, m !! ip = Some deptId → deptId ≠ EmptyString) →
  ipMapped m ip = true ↔ is_Some (m !! ip) ∨ inheritedName ip = true.
Proof.
  intros Hwf. unfold ipMapped. destruct (m !! ip) as [deptId|] eqn:E.
  - rewrite truthy_ne. split; [eauto|]. intros _. by eapply Hwf.
  - split; [by right|]. by intros [[? ?]|?].
Qed.

Lemma ipMapped_false (m : gmap string string) ip :
  m !! ip = None → inheritedName ip = false → ipMapped m ip = false.
Proof. intros Hfree Hown. unfold ipMapped. by rewrite Hfree. Qed.

(** The handler's three outcomes: a field missing, the batch refused,
    the batch written. *)
Lemma handleAddIpMapping_refused p st :
  newMapDeptId st ≠ EmptyString →
  (∃ ip, ip ∈ ipsToAdd (newMapIp st)
         ∧ ipMapped (IpAccessConfig.departmentIps (ipConfig p)) ip = true) →
  (handleAddIpMapping p st).2 = None
  ∧ ipConfigAfter p (handleAddIpMapping p st) = ipConfig p
  ∧ error (handleAddIpMapping p st).1 ≠ EmptyString.
Proof.
  intros Hdept%truthy_ne (ip & Hin & Hmapped).
  unfold handleAddIpMapping, ipConfigAfter. rewrite Hdept. simpl negb.
  rewrite orb_false_r.
  destruct (truthy (trim (newMapIp st))) eqn:Hip; simpl negb; cbv iota; [|done].
  set (existingIps := filter _ _).
  assert (Hex : ip ∈ existingIps) by (by apply list_elem_of_filter).
  rewrite bool_decide_eq_true_2; [done|].
  destruct existingIps; [by apply elem_of_nil in Hex|simpl; lia].
Qed.

Lemma handleAddIpMapping_written p st :
  newMapDeptId st ≠ EmptyString →
  trim (newMapIp st) ≠ EmptyString →
  (∀ ip, ip ∈ ipsToAdd (newMapIp st) →
         ipMapped (IpAccessConfig.departmentIps (ipConfig p)) ip = false) →
  handleAddIpMapping p st
  = (setError EmptyString (setNewMapDeptId EmptyString (setNewMapIp EmptyString st)),
     Some (onUpdateIpConfig
             (IpAccessConfig.mk
                (IpAccessConfig.designerIps (ipConfig p))
                (foldl (λ m ip, <[ip := newMapDeptId st]> m)
                       (IpAccessConfig.departmentIps (ipConfig p))
                       (ipsToAdd (newMapIp st)))))).
Proof.
  intros Hdept%truthy_ne Hip%truthy_ne Hfree.
  unfold handleAddIpMapping. rewrite Hdept, Hip. simpl negb. simpl orb. cbv iota.
  set (existingIps := filter _ _).
  assert (existingIps = []) as ->.
  { apply elem_of_nil_inv. intros ip [Hmapped Hin]%list_elem_of_filter.
    rewrite (Hfree ip Hin) in Hmapped. discriminate. }
  by rewrite bool_decide_eq_false_2 by (simpl; lia).
Qed.

(** Identifiers in the map stay non-empty. *)
Lemma handleAddIpMapping_keeps_ids p st :
  (∀ ip deptId,
     IpAccessConfig.departmentIps (ipConfig p) !! ip = Some deptId →
     deptId ≠ EmptyString) →
  ∀ ip deptId,
    IpAccessConfig.departmentIps (ipConfigAfter p (handleAddIpMapping p st)) !! ip
    = Some deptId →
    deptId ≠ EmptyString.
Proof.
  intros Hwf ip deptId. unfold handleAddIpMapping, ipConfigAfter.
  destruct (negb (truthy (trim (newMapIp st)))) eqn:Hip; [apply Hwf|].
  destruct (truthy (newMapDeptId st)) eqn:Hdept; [|apply Hwf]. simpl orb. cbv iota.
  destruct (bool_decide _); [apply Hwf|]. simpl.
  rewrite lookup_foldl_insert. destruct (decide _); [|apply Hwf].
  intros [= <-]. by apply truthy_ne.
Qed.

End IpFacts.

(** * The claims *)

Import JS JSFacts AdminModal ScanFacts ResolveFacts RoundTripFacts ImportFacts IpFacts.

Section Claims.
Context {rt : Runtime}.

(** C1, as amended. Exporting a non-empty list of valid events and
    importing the text again hands [onBulkAddEvents] one record per
    event, in order, equal to it in title, calendar date, urgency and
    the names its department and assignee resolve to, provided that no
    exported text of an event holds a line feed, that the urgency key
    and the date text can stand unquoted, that the [Date] constructor
    reads the date text back as the same day, and that identifiers are
    unique among departments and among users. *)
Theorem C1_roundtrip_of_line_safe_events (p : Props) :
  events p ≠ [] →
  Forall validEvent (events p) →
  Forall (lineSafe p) (events p) →
  NoDup (Department.id <$> departments p) →
  NoDup (User.id <$> users p) →
  roundTrips p.
Proof.
  intros Hne Hvalid Hsafe Hdeps Husers.
  set (rows := (λ ev, rowText p ev (dateText ev)) <$> events p).
  assert (Hdates : Forall (λ ev, ∃ t, CalendarEvent.date ev = ValidDate t) (events p)).
  { eapply Forall_impl; [exact Hvalid|]. by intros ev (_ & Ht & _). }
  assert (Hboth : Forall (λ ev, validEvent ev ∧ lineSafe p ev) (events p)).
  { apply Forall_and. by split. }
  assert (Hbare : Forall (λ ev, bare (dateText ev) = true
                              ∧ bare (CalendarEvent.urgency ev) = true) (events p)).
  { eapply Forall_impl; [exact Hboth|].
    intros ev [(_ & [t Ht] & _) (_ & _ & _ & _ & Hu & Hd)].
    split; [|done]. unfold dateText. rewrite Ht. simpl. by apply Hd. }
  exists (csvHeader +:+ nl +:+ unlines rows), (reimported p <$> events p).
  split; [by apply handleExportCSV_text|]. split.
  - unfold decode, handleImportCSV. simpl importText.
    destruct (lines_of_export rows) as [Htruthy Hlines].
    + unfold rows. by destruct (events p).
    + unfold rows. apply Forall_fmap, Forall_forall. intros ev _. apply rowText_ends.
    + unfold rows. apply Forall_fmap.
      assert (Hsb : Forall (λ ev, lineSafe p ev
                             ∧ (bare (dateText ev) = true
                                ∧ bare (CalendarEvent.urgency ev) = true)) (events p))
        by (apply Forall_and; by split).
      eapply Forall_impl; [exact Hsb|].
      intros ev [(H1 & H2 & H3 & H4 & H5 & _) [Hd _]]. simpl.
      apply noLineFeed_rowText; auto using bare_noLineFeed.
    + rewrite Htruthy, Hlines. simpl negb. cbv iota.
      assert ((length (csvHeader :: rows) <? 2)%nat = false) as ->.
      { unfold rows. destruct (events p); [done|]. done. }
      simpl tail.
      assert (omap (importLine p) rows = reimported p <$> events p) as ->.
      { unfold rows. apply omap_fmap_Some.
        eapply Forall_impl; [exact Hbare|]. intros ev [Hd Hu].
        by apply importLine_rowText. }
      by destruct (onBulkAddEventsRejects _).
  - apply Forall2_fmap_r, Forall_Forall2_diag.
    eapply Forall_impl; [exact Hboth|].
    intros ev [(_ & [t Ht] & Hu) (_ & _ & _ & _ & _ & Hd)].
    destruct (Hd t Ht) as [_ Hback].
    unfold sameEvent, reimported, dateText. simpl. rewrite Ht. simpl.
    repeat split; [by eexists|done| | |].
    + unfold coerceUrgency, urgencyKnown. destruct Hu as [config Hown]. by rewrite Hown.
    + by apply deptName_back.
    + by apply userName_back.
Qed.


(** C8. On an exported line the department and assignee fields hold the
    wrapped name that the event's reference resolves to in the current
    lists: the name of a listed department (user) carrying that
    identifier when there is one, and the empty text when the reference
    is absent or matches no listed identifier. *)
Theorem C8_export_resolves_names (p : Props) (ev : CalendarEvent.t) (fields : list string) :
  exportFields p ev = Some fields →
  let deptName := deptNameOf (departments p) (CalendarEvent.departmentId ev) in
  let userName := userNameOf (users p) (CalendarEvent.assigneeId ev) in
  fields !! 4%nat = Some (safe deptName)
  ∧ fields !! 5%nat = Some (safe userName)
  ∧ ((∃ d, d ∈ departments p ∧ Some (Department.id d) = CalendarEvent.departmentId ev) →
     ∃ d, d ∈ departments p ∧ Some (Department.id d) = CalendarEvent.departmentId ev
          ∧ deptName = Department.name d)
  ∧ ((∀ d, d ∈ departments p → Some (Department.id d) ≠ CalendarEvent.departmentId ev) →
     deptName = EmptyString)
  ∧ ((∃ u, u ∈ users p ∧ Some (User.id u) = CalendarEvent.assigneeId ev) →
     ∃ u, u ∈ users p ∧ Some (User.id u) = CalendarEvent.assigneeId ev
          ∧ userName = User.name u)
  ∧ ((∀ u, u ∈ users p → Some (User.id u) ≠ CalendarEvent.assigneeId ev) →
     userName = EmptyString).
Proof.
  unfold exportFields. intros H.
  destruct (format_yyyy_MM_dd (CalendarEvent.date ev)) as [dateStr|]; [|done].
  simpl in H. injection H as <-. cbv zeta.
  split; [done|]. split; [done|].
  unfold deptNameOf, userNameOf. repeat split.
  - intros (d & Hd & Hid). apply (nameOf_found Department.id Department.name). eauto.
  - apply (nameOf_dangling Department.id Department.name).
  - intros (u & Hu & Hid). apply (nameOf_found User.id User.name). eauto.
  - apply (nameOf_dangling User.id User.name).
Qed.


(** C5. A line is left out of the records exactly when it yields fewer
    than three fields; the handler then goes on: [onBulkAddEvents]
    receives the records of the other lines in their order, as if the
    short line were not there, and when that call succeeds the error
    message is cleared. *)
Theorem C5_short_lines_skipped (p : Props) (st : State) :
  let lines := split newline (trim (importText st)) in
  (2 ≤ length lines)%nat →
  (∀ rawLine,
     importLine p rawLine = None ↔ (length (parseCSVLine (trim rawLine)) < 3)%nat)
  ∧ (handleImportCSV p st).2 = Some (onBulkAddEvents (omap (importLine p) (tail lines)))
  ∧ (∀ before rawLine after,
       tail lines = before ++ rawLine :: after →
       (length (parseCSVLine (trim rawLine)) < 3)%nat →
       omap (importLine p) (tail lines) = omap (importLine p) (before ++ after))
  ∧ (onBulkAddEventsRejects (omap (importLine p) (tail lines)) = None →
     error (handleImportCSV p st).1 = EmptyString).
Proof.
  intros lines Hlen.
  destruct (handleImportCSV_call p st Hlen) as [Hcall Hstate].
  split; [apply importLine_None|]. split; [exact Hcall|]. split.
  - intros before rawLine after -> Hshort.
    rewrite !omap_app. simpl. by rewrite (proj2 (importLine_None p rawLine) Hshort).
  - intros Hok. by rewrite (Hstate Hok).
Qed.

(** C6 does not hold of the code. The import keeps the third field as
    the urgency when [URGENCY_CONFIGS[urgency]] is truthy, and that
    value is truthy for every name a plain object inherits, urgency
    level or not. Whatever the keys of [URGENCY_CONFIGS], the line
    [Kampanya,2024-01-15,constructor] gives a record whose urgency is
    [constructor] and not ['Medium']. *)
Theorem C6_inherited_name_kept_as_urgency (p : Props) :
  ∃ r,
    importLine p "Kampanya,2024-01-15,constructor" = Some r
    ∧ PartialEvent.urgency r = "constructor"
    ∧ PartialEvent.urgency r ≠ "Medium".
Proof.
  pose proof (importLine_cols p "Kampanya,2024-01-15,constructor") as Hrow.
  cbv zeta in Hrow.
  replace (parseCSVLine (trim "Kampanya,2024-01-15,constructor"))
    with ["Kampanya"; "2024-01-15"; "constructor"] in Hrow
    by (vm_compute; reflexivity).
  simpl in Hrow. eexists. split; [exact Hrow|]. simpl.
  assert (Hkept : coerceUrgency "constructor" = "constructor").
  { unfold coerceUrgency, urgencyKnown.
    by destruct (URGENCY_CONFIGS !! "constructor"). }
  by rewrite Hkept.
Qed.

(** C9. When the trimmed input holds no line feed, that is when it is
    empty, blank or a single (header) line, the handler only sets an
    error message: nothing else of the form changes and no callback is
    called. *)
Theorem C9_empty_or_header_only_rejected (p : Props) (st : State) :
  noLineFeed (trim (importText st)) = true →
  ∃ msg,
    msg ≠ EmptyString
    ∧ handleImportCSV p st = (setError msg st, None)
    ∧ (trim (importText st) = EmptyString → msg = "Lütfen CSV verisi giriniz.")
    ∧ (trim (importText st) ≠ EmptyString →
       msg = "CSV içeriği boş veya sadece başlıktan oluşuyor.").
Proof.
  intros Hnl. unfold handleImportCSV.
  destruct (trim (importText st)) as [|c s] eqn:E.
  - eexists. split; [|split; [reflexivity|split; [done|done]]]. done.
  - simpl truthy. simpl negb. cbv iota.
    rewrite (split_single newline (String c s) Hnl). simpl.
    eexists. split; [|split; [reflexivity|split; [done|done]]]. done.
Qed.

(** C7. An announcement is unread for a viewer exactly when the viewer
    identifier is present (neither null nor empty), the announcement was
    created on the local calendar day of the current time, and the
    identifier is not in its acknowledgment list. Without an identifier
    the answer is no, an announcement of another day is never unread
    whatever its acknowledgments, and the effect run when the modal is
    shown marks exactly the unread announcements. *)
Theorem C7_isUnread_iff (now : Z) (a : Announcement.t) (viewer : option string) :
  (AnnouncementModal.isUnread now a viewer = true ↔
   ∃ id t,
     viewer = Some id ∧ id ≠ EmptyString
     ∧ Announcement.createdAt a = ValidDate t
     ∧ startOfDay t = startOfDay now
     ∧ id ∉ default [] (Announcement.readBy a))
  ∧ AnnouncementModal.isUnread now a None = false
  ∧ AnnouncementModal.isUnread now a (Some EmptyString) = false
  ∧ (∀ t, Announcement.createdAt a = ValidDate t →
          startOfDay t ≠ startOfDay now →
          AnnouncementModal.isUnread now a viewer = false)
  ∧ (∀ isOpen sortedAnnouncements,
       AnnouncementModal.markUnreadEffect now isOpen sortedAnnouncements viewer
       = if isOpen
         then Announcement.id
                <$> filter (λ b, AnnouncementModal.isUnread now b viewer = true)
                      sortedAnnouncements
         else []).
Proof.
  split; [|split; [|split; [|split]]];
    [| | | |intros; apply AnnouncementFacts.markUnreadEffect_filter];
    unfold AnnouncementModal.isUnread, AnnouncementModal.isToday,
      AnnouncementModal.isSameDay, AnnouncementModal.readByIncludes.
  - split.
    + intros [Hday Hviewer]%andb_prop.
      destruct viewer as [id|]; [|done].
      apply andb_prop in Hviewer as [Hid Hread].
      destruct (Announcement.createdAt a) as [t|]; [|done].
      exists id, t. repeat split.
      * by apply truthy_ne.
      * by apply Z.eqb_eq.
      * apply negb_true_iff in Hread. by apply bool_decide_eq_false in Hread.
    + intros (id & t & -> & Hid & -> & Hday & Hread).
      apply Z.eqb_eq in Hday. rewrite Hday. simpl.
      apply truthy_ne in Hid. rewrite Hid. simpl.
      apply negb_true_iff. by apply bool_decide_eq_false.
  - apply andb_false_r.
  - apply andb_false_r.
  - intros t -> Hday. apply Z.eqb_neq in Hday. by rewrite Hday.
Qed.

(** C10. Every call of [onAddUser] made by the user form carries a
    non-empty emoji: the selected one, or the fallback glyph when a
    photo was chosen without an emoji, which is then passed together
    with the uploaded URL; and that call is indeed made whenever name and
    e-mail are filled in, a photo is chosen without an emoji and its
    upload succeeds. *)
Theorem C10_created_user_has_glyph (st : State) :
  (∀ name email emoji avatarUrl,
     (handleAddSubmit st).2 = Some (onAddUser name email emoji avatarUrl) →
     emoji ≠ EmptyString
     ∧ (selectedEmoji st ≠ EmptyString →
        emoji = selectedEmoji st)
     ∧ (selectedEmoji st = EmptyString →
        ∃ file, avatarFile st = Some file
                ∧ emoji = fallbackEmoji
                ∧ uploadAvatar file = inl avatarUrl))
  ∧ (∀ file avatarUrl,
       trim (newName st) ≠ EmptyString →
       trim (newEmail st) ≠ EmptyString →
       selectedEmoji st = EmptyString →
       avatarFile st = Some file →
       uploadAvatar file = inl avatarUrl →
       (handleAddSubmit st).2
       = Some (onAddUser (newName st) (newEmail st) fallbackEmoji avatarUrl)).
Proof.
  destruct st as [importText0 name0 email0 emoji0 file0 up0 prev0 ip0 dept0 err0].
  unfold handleAddSubmit.
  cbn [newName newEmail selectedEmoji avatarFile setIsUploading].
  split.
  - intros name email emoji avatarUrl.
    destruct (negb (truthy (trim name0)) || negb (truthy (trim email0))); [done|].
    destruct emoji0 as [|c emoji0]; cbn [truthy negb andb].
    + destruct file0 as [file|].
      * rewrite bool_decide_eq_true_2 by eauto. cbn [negb].
        destruct (uploadAvatar file) as [url|msg] eqn:Hup; [|done].
        destruct (onAddUserRejects _ _ _ _); cbn [snd]; intros [= <- <- <- <-];
          (split; [done|split; [done|]]); intros _; exists file; done.
      * rewrite bool_decide_eq_false_2 by (by intros [? ?]). done.
    + destruct file0 as [file|].
      * destruct (uploadAvatar file) as [url|msg]; [|done].
        destruct (onAddUserRejects _ _ _ _); cbn [snd]; intros [= <- <- <- <-]; done.
      * destruct (onAddUserRejects _ _ _ _); cbn [snd]; intros [= <- <- <- <-]; done.
  - intros file avatarUrl Hname%truthy_ne Hemail%truthy_ne -> ->.
    rewrite Hname, Hemail. cbn [negb orb truthy andb].
    rewrite bool_decide_eq_true_2 by eauto. cbn [negb].
    intros ->. by destruct (onAddUserRejects _ _ _ _).
Qed.

(** C4 does not hold of the code. The handler takes an address for
    mapped when [departmentIps[ip]] is truthy, and that value is truthy
    for every name a plain object inherits, whether or not the name is
    a key of the map. With a department identifier chosen and the text
    [constructor], which the map does not hold, no call is made and
    only the message naming [constructor] as already defined is set:
    the address is not inserted. *)
Theorem C4_inherited_name_refused (p : Props) (st : State) :
  newMapIp st = "constructor" →
  newMapDeptId st ≠ EmptyString →
  IpAccessConfig.departmentIps (ipConfig p) !! "constructor" = None →
  handleAddIpMapping p st = (setError "Şu IP'ler zaten tanımlı: constructor" st, None)
  ∧ IpAccessConfig.departmentIps (ipConfigAfter p (handleAddIpMapping p st))
    !! "constructor" = None.
Proof.
  intros Hip Hdept%truthy_ne Hfree.
  assert (Hout : handleAddIpMapping p st
                 = (setError "Şu IP'ler zaten tanımlı: constructor" st, None)).
  { unfold handleAddIpMapping. rewrite Hip, Hdept.
    replace (ipsToAdd "constructor") with ["constructor"] by (vm_compute; reflexivity).
    replace (negb (truthy (trim "constructor")) || negb true) with false
      by (vm_compute; reflexivity).
    cbv iota zeta. rewrite filter_cons, filter_nil.
    assert (Hmapped : ipMapped (IpAccessConfig.departmentIps (ipConfig p)) "constructor"
                      = true)
      by (unfold ipMapped; rewrite Hfree; vm_compute; reflexivity).
    rewrite decide_True by exact Hmapped. simpl length.
    rewrite bool_decide_eq_true_2 by lia. reflexivity. }
  split; [exact Hout|]. unfold ipConfigAfter. by rewrite Hout.
Qed.

End Claims.

(** ** C1: instances *)

Ltac by_evaluation := vm_compute; reflexivity.

Ltac valid_sample_event :=
  split; [discriminate | split; [eexists; reflexivity | eexists; by_evaluation]].

Ltac each_sample_event tac :=
  repeat (apply Forall_cons_2; [tac|]); apply Forall_nil_2.

Ltac line_safe_sample_event :=
  do 5 (split; [by_evaluation|]);
  intros t [= <-]; split; by_evaluation.

Lemma C1_roundtrip_witness :
  @roundTrips SampleRuntime.runtime (Sample.props [Sample.sale; Sample.launch]).
Proof.
  apply (@C1_roundtrip_of_line_safe_events SampleRuntime.runtime).
  - discriminate.
  - each_sample_event valid_sample_event.
  - each_sample_event line_safe_sample_event.
  - apply (bool_decide_unpack _). by_evaluation.
  - apply (bool_decide_unpack _). by_evaluation.
Defined.

(** C1 as stated fails: a valid event whose description holds a line
    feed is exported on two lines; the import reads the first one as a
    record without department or assignee and skips the second. *)
Lemma C1_roundtrip_fails_on_line_feed :
  Forall (@validEvent SampleRuntime.runtime) (events (Sample.props [Sample.twoLines]))
  ∧ ¬ @roundTrips SampleRuntime.runtime (Sample.props [Sample.twoLines]).
Proof.
  split; [each_sample_event valid_sample_event|].
  intros (text & decoded & Hexport & Hdecode & Hsame).
  vm_compute in Hexport. injection Hexport as <-.
  vm_compute in Hdecode. injection Hdecode as <-.
  apply Forall2_cons_1 in Hsame as [(_ & _ & _ & _ & Hdept & _) _].
  vm_compute in Hdept. discriminate.
Qed.

(** ** C2: instances *)



(** ** C8: instances *)

Lemma C8_export_resolves_names_witness :
  Sample.saleFields !! 4%nat = Some (safe "Pazarlama, Dijital")
  ∧ Sample.saleFields !! 5%nat = Some (safe "Ayşe Kaya").
Proof.
  destruct (@C8_export_resolves_names SampleRuntime.runtime
              (Sample.props [Sample.sale]) Sample.sale Sample.saleFields)
    as (Hdept & Huser & _); [by_evaluation|].
  split; [exact Hdept|exact Huser].
Defined.

(** A reference to a deleted department leaves the field empty between
    its quotes. *)
Example export_dangling_department :
  @exportFields SampleRuntime.runtime (Sample.props [Sample.launch]) Sample.launch
  = Some [safe "Lansman"; "1970-01-01"; "Low"; safe EmptyString; safe EmptyString;
          safe EmptyString].
Proof. by_evaluation. Qed.

(** ** C3, C5, C6, C9: instances *)

Example import_pastedText :
  @handleImportCSV SampleRuntime.runtime (Sample.props []) Sample.pastedForm
  = (initialState, Some (onBulkAddEvents [Sample.springRecord; Sample.saleRecord])).
Proof. by_evaluation. Qed.



Lemma C5_short_lines_witness :
  (@handleImportCSV SampleRuntime.runtime (Sample.props []) Sample.pastedForm).2
  = Some (onBulkAddEvents
            (omap (@importLine SampleRuntime.runtime (Sample.props []))
               (tail (split newline (trim (importText Sample.pastedForm))))))
  ∧ @importLine SampleRuntime.runtime (Sample.props []) "yarım,satır" = None.
Proof.
  destruct (@C5_short_lines_skipped SampleRuntime.runtime (Sample.props []) Sample.pastedForm)
    as (Hskip & Hcall & _).
  - apply Nat.leb_le. by_evaluation.
  - split; [exact Hcall|]. apply Hskip. apply Nat.ltb_lt. by_evaluation.
Defined.

(** The levels of the sample configuration do not include the name. *)
Example constructor_is_no_urgency_level :
  @URGENCY_CONFIGS SampleRuntime.runtime !! "constructor" = None.
Proof. by_evaluation. Qed.

Example import_inherited_name :
  PartialEvent.urgency
    <$> @importLine SampleRuntime.runtime (Sample.props []) "Kampanya,2024-01-15,constructor"
  = Some "constructor".
Proof. by_evaluation. Qed.

Example import_unknown_urgency :
  @importLine SampleRuntime.runtime (Sample.props []) "Bahar kampanyası,yakında,Acil"
  = Some Sample.springRecord.
Proof. by_evaluation. Qed.

Lemma C9_header_only_witness :
  ∃ msg,
    msg ≠ EmptyString
    ∧ @handleImportCSV SampleRuntime.runtime (Sample.props [])
        (setImportText (csvHeader +:+ nl) initialState)
      = (setError msg (setImportText (csvHeader +:+ nl) initialState), None)
    ∧ (trim (csvHeader +:+ nl) = EmptyString → msg = "Lütfen CSV verisi giriniz.")
    ∧ (trim (csvHeader +:+ nl) ≠ EmptyString →
       msg = "CSV içeriği boş veya sadece başlıktan oluşuyor.").
Proof.
  apply (@C9_empty_or_header_only_rejected SampleRuntime.runtime (Sample.props [])
           (setImportText (csvHeader +:+ nl) initialState)).
  by_evaluation.
Defined.

(** ** C4: instances *)

Lemma sample_mapping_ids (ip deptId : string) :
  IpAccessConfig.departmentIps (ipConfig (Sample.props [])) !! ip = Some deptId →
  deptId ≠ EmptyString.
Proof. simpl. intros [_ <-]%lookup_singleton_Some. discriminate. Defined.

Example ipsToAdd_sample :
  ipsToAdd "10.0.0.2,  10.0.0.3 10.0.0.4," = ["10.0.0.2"; "10.0.0.3"; "10.0.0.4"].
Proof. by_evaluation. Qed.

Lemma C4_inherited_name_witness :
  handleAddIpMapping (Sample.props []) (Sample.mappingForm "constructor" "d2")
  = (setError "Şu IP'ler zaten tanımlı: constructor" (Sample.mappingForm "constructor" "d2"),
     None)
  ∧ IpAccessConfig.departmentIps
      (ipConfigAfter (Sample.props [])
         (handleAddIpMapping (Sample.props []) (Sample.mappingForm "constructor" "d2")))
    !! "constructor" = None.
Proof.
  apply (C4_inherited_name_refused (Sample.props []) (Sample.mappingForm "constructor" "d2")).
  - reflexivity.
  - discriminate.
  - by_evaluation.
Defined.

(** The batch of the specification's example: one address of two is
    already mapped, so nothing is updated and the other one stays
    unmapped. *)
Example mapping_batch_rejected :
  let out := handleAddIpMapping (Sample.props []) (Sample.mappingForm "10.0.0.1, 10.0.0.2" "d2") in
  out.2 = None
  ∧ error out.1 = "Şu IP'ler zaten tanımlı: 10.0.0.1"
  ∧ IpAccessConfig.departmentIps (ipConfigAfter (Sample.props []) out) !! "10.0.0.2" = None.
Proof. cbv zeta. repeat split; by_evaluation. Qed.

(** ** C7, C10: instances *)

Example unread_same_day :
  @AnnouncementModal.isUnread SampleRuntime.runtime (Sample.lateEvening + 60000)
    (Sample.duyuru Sample.lateEvening (Some ["u2"])) (Some "u1") = true.
Proof. by_evaluation. Qed.

Example read_after_acknowledgment :
  @AnnouncementModal.isUnread SampleRuntime.runtime (Sample.lateEvening + 60000)
    (Sample.duyuru Sample.lateEvening (Some ["u2"; "u1"])) (Some "u1") = false.
Proof. by_evaluation. Qed.

(** An hour later but on the next calendar day: not unread, although
    nobody acknowledged it. *)
Example not_unread_next_day :
  @AnnouncementModal.isUnread SampleRuntime.runtime Sample.afterMidnight
    (Sample.duyuru Sample.lateEvening None) (Some "u1") = false.
Proof. by_evaluation. Qed.

Lemma C10_created_user_witness :
  (@handleAddSubmit SampleRuntime.runtime Sample.photoForm).2
  = Some (onAddUser "Ayşe Kaya" "ayse@example.com" fallbackEmoji
            "https://storage.example/user-avatars/ayse.png")
  ∧ fallbackEmoji ≠ EmptyString.
Proof.
  destruct (@C10_created_user_has_glyph SampleRuntime.runtime Sample.photoForm) as [Hglyph Hcall].
  assert (Hmade : (@handleAddSubmit SampleRuntime.runtime Sample.photoForm).2
                  = Some (onAddUser "Ayşe Kaya" "ayse@example.com" fallbackEmoji
                            "https://storage.example/user-avatars/ayse.png")).
  { apply (Hcall (mkFile "ayse.png")); [discriminate|discriminate|reflexivity..]. }
  split; [exact Hmade|]. exact (proj1 (Hglyph _ _ _ _ Hmade)).
Defined.

(** ** The date text and the time zone *)

(** The [Date] constructor reads a date-only text as UTC midnight while
    [format] renders local time: east of UTC the day read back is the
    day written, five hours west of it the day before. This is why the
    statement of the round trip asks for the date text to be read back
    as the same day. *)
Example date_read_back_east_of_utc :
  SampleRuntime.sampleNewDate "2024-01-15" = ValidDate 1705276800000
  ∧ SampleRuntime.formatYmdAt (3 * 3600000) 1705276800000 = "2024-01-15".
Proof. split; by_evaluation. Qed.

Example date_read_back_west_of_utc :
  SampleRuntime.formatYmdAt (-5 * 3600000) 1705276800000 = "2024-01-14".
Proof. by_evaluation. Qed.

(** * Further properties *)

(** ** More on the codec *)

Module CodecFacts.
Import JS JSFacts AdminModal AdminPanel ScanFacts RoundTripFacts ImportFacts.

Lemma scanFields_join_safe values : ∀ value,
  scanFields (JS.join "," (safe <$> (value :: values))) EmptyString false
  = value :: values.
Proof.
  induction values as [|next values IH]; intros value.
  - change (JS.join "," (safe <$> [value])) with (safe value).
    rewrite <- parseCSVLine_scanFields. apply parseCSVLine_safe.
  - change (JS.join "," (safe <$> (value :: next :: values)))
      with (safe value +:+ String comma (JS.join "," (safe <$> (next :: values)))).
    rewrite scan_safe, app_nil_l, scan_comma, cleanField_safe. f_equal. apply IH.
Qed.

(** Any number of values, each wrapped as the export wraps a text and
    joined with commas, is read back by [parseCSVLine] as exactly these
    values, whatever they contain. *)
Theorem parseCSVLine_join_safe (values : list string) :
  values ≠ [] →
  parseCSVLine (JS.join "," (safe <$> values)) = values.
Proof.
  destruct values as [|value values]; [done|]. intros _.
  rewrite parseCSVLine_scanFields. apply scanFields_join_safe.
Qed.

Lemma scanFields_plain s : ∀ cur,
  noQuote s = true → noQuote cur = true →
  scanFields s cur false
  = match split comma s with
    | piece :: pieces => (cur +:+ piece) :: pieces
    | [] => []
    end.
Proof.
  unfold noQuote.
  induction s as [|c s IH]; intros cur Hs Hcur.
  - simpl. rewrite app_nil_r. unfold cleanField.
    by rewrite stripQuotes_noquote, collapse_noquote.
  - simpl in Hs. apply andb_prop in Hs as [Hc Hs]. apply negb_true_iff in Hc.
    simpl scanFields. rewrite Hc. simpl split.
    destruct (Ascii.eqb c comma) eqn:Ecomma; simpl andb; cbv iota.
    + rewrite app_nil_r. rewrite (IH EmptyString Hs eq_refl).
      unfold cleanField. rewrite stripQuotes_noquote, collapse_noquote by done.
      f_equal. destruct (split comma s); [done|by rewrite app_nil_l].
    + rewrite IH; [|done|].
      * destruct (split comma s) as [|piece pieces] eqn:E.
        { by destruct (split_nonempty comma s). }
        by rewrite app_snoc.
      * rewrite allChars_app, Hcur. simpl. by rewrite Hc.
Qed.

(** On a line without double quotes [parseCSVLine] is the plain split at
    commas. *)
Theorem parseCSVLine_without_quotes (line : string) :
  noQuote line = true → parseCSVLine line = split comma line.
Proof.
  intros H. rewrite parseCSVLine_scanFields, scanFields_plain by done.
  destruct (split comma line); [done|by rewrite app_nil_l].
Qed.

Lemma trimEnd_app a b :
  trimEnd (a +:+ b)
  = match trimEnd b with
    | EmptyString => trimEnd a
    | String c r => a +:+ String c r
    end.
Proof.
  induction a as [|d a IH].
  - rewrite app_nil_l. by destruct (trimEnd b).
  - rewrite app_cons. simpl trimEnd at 1. rewrite IH.
    destruct (trimEnd b) as [|c r]; [done|].
    destruct a; done.
Qed.

Lemma trimEnd_nonempty c s : isWhiteSpace c = false → trimEnd (String c s) ≠ EmptyString.
Proof. intros Hc. simpl. destruct (trimEnd s); [by rewrite Hc|done]. Qed.

Lemma noLineFeed_trimEnd s : noLineFeed s = true → noLineFeed (trimEnd s) = true.
Proof.
  unfold noLineFeed. induction s as [|c s IH]; [done|]. simpl.
  intros [Hc Hs]%andb_prop. specialize (IH Hs).
  destruct (trimEnd s) as [|d r].
  - destruct (isWhiteSpace c); [done|]. simpl. by rewrite Hc.
  - simpl in *. by rewrite Hc, IH.
Qed.

Lemma length_omap_le {A B} (f : A → option B) (l : list A) :
  (length (omap f l) ≤ length l)%nat.
Proof.
  induction l as [|x l IH]; [done|].
  change (omap f (x :: l))
    with (match f x with Some y => y :: omap f l | None => omap f l end).
  destruct (f x); simpl length; lia.
Qed.

Section WithRuntime.
Context {rt : Runtime}.

Lemma export_fold_None p evs :
  foldl (λ acc ev, csvContent ← acc; line ← exportLine p ev; Some (csvContent +:+ line))
        None evs = None.
Proof. by induction evs. Qed.

Lemma exportLine_None p ev :
  exportLine p ev = None ↔ CalendarEvent.date ev = InvalidDate.
Proof.
  unfold exportLine, exportFields.
  destruct (CalendarEvent.date ev); simpl; split; intros; congruence.
Qed.

Lemma export_fold_Exists p evs : ∀ acc,
  Exists (λ ev, CalendarEvent.date ev = InvalidDate) evs →
  foldl (λ acc ev, csvContent ← acc; line ← exportLine p ev; Some (csvContent +:+ line))
        (Some acc) evs = None.
Proof.
  induction evs as [|ev evs IH]; intros acc Hex.
  - by apply Exists_nil in Hex.
  - simpl foldl. destruct (exportLine p ev) as [line|] eqn:E; simpl.
    + apply Exists_cons in Hex as [Hbad|Hex]; [|by apply IH].
      apply (exportLine_None p) in Hbad. congruence.
    + apply export_fold_None.
Qed.

(** The export throws, and nothing is downloaded, exactly when some
    event has an Invalid Date; otherwise the text is the header line
    followed by one line per event, in order, each closed by a line
    feed. *)
Theorem handleExportCSV_throws_iff (p : Props) :
  (handleExportCSV p = None
   ↔ ∃ ev, ev ∈ events p ∧ CalendarEvent.date ev = InvalidDate)
  ∧ (∀ text, handleExportCSV p = Some text →
       text = csvHeader +:+ nl
              +:+ unlines ((λ ev, rowText p ev (dateText ev)) <$> events p)).
Proof.
  assert (Hcases : Forall (λ ev, ∃ t, CalendarEvent.date ev = ValidDate t) (events p)
                   ∨ Exists (λ ev, CalendarEvent.date ev = InvalidDate) (events p)).
  { induction (events p) as [|ev evs IH]; [left; constructor|].
    destruct IH as [IH|IH]; [|right; by apply Exists_cons_tl].
    destruct (CalendarEvent.date ev) as [t|] eqn:E.
    - left. apply Forall_cons_2; eauto.
    - right. by apply Exists_cons_hd. }
  split.
  - split.
    + intros Hnone. destruct Hcases as [Hall|Hex].
      * rewrite handleExportCSV_text in Hnone by done. discriminate.
      * apply Exists_exists in Hex. exact Hex.
    + intros Hex. apply Exists_exists in Hex. by apply export_fold_Exists.
  - intros text Htext. destruct Hcases as [Hall|Hex].
    + rewrite handleExportCSV_text in Htext by done. by injection Htext as <-.
    + unfold handleExportCSV in Htext. rewrite export_fold_Exists in Htext by done.
      discriminate.
Qed.

Lemma handleImportCSV_records p st newEvents :
  (handleImportCSV p st).2 = Some (onBulkAddEvents newEvents) →
  (2 ≤ length (split newline (trim (importText st))))%nat
  ∧ newEvents = omap (importLine p) (tail (split newline (trim (importText st)))).
Proof.
  unfold handleImportCSV.
  destruct (negb (truthy (trim (importText st)))); [done|].
  destruct (length (split newline (trim (importText st))) <? 2)%nat eqn:Hlen; [done|].
  apply Nat.ltb_ge in Hlen. intros Hcall. split; [done|].
  destruct (onBulkAddEventsRejects _); simpl in Hcall; by injection Hcall as <-.
Qed.

(** The urgency of an imported line. A line with at least three fields
    always gives a record; its urgency is the third field when that is a
    key of [URGENCY_CONFIGS] or a name every object inherits, and
    ['Medium'] when it is neither. *)
Theorem importLine_urgency (p : Props) (rawLine : string) :
  (3 ≤ length (parseCSVLine (trim rawLine)))%nat →
  ∃ r urgency,
    parseCSVLine (trim rawLine) !! 2%nat = Some urgency
    ∧ importLine p rawLine = Some r
    ∧ (is_Some (URGENCY_CONFIGS !! urgency) ∨ inheritedName urgency = true →
       PartialEvent.urgency r = urgency)
    ∧ (URGENCY_CONFIGS !! urgency = None → inheritedName urgency = false →
       PartialEvent.urgency r = "Medium").
Proof.
  intros Hlen.
  pose proof (importLine_cols p rawLine) as Hrow. cbv zeta in Hrow.
  assert ((length (parseCSVLine (trim rawLine)) <? 3)%nat = false) as E
    by (apply Nat.ltb_ge; lia).
  rewrite E in Hrow.
  destruct (lookup_lt_is_Some_2 (parseCSVLine (trim rawLine)) 2%nat) as [urgency Hu];
    [lia|].
  rewrite Hu in Hrow. simpl in Hrow.
  eexists _, urgency. split; [done|]. split; [exact Hrow|]. simpl.
  unfold coerceUrgency, urgencyKnown. split.
  - intros [[config Hown]|Hinherited].
    + by rewrite Hown.
    + destruct (URGENCY_CONFIGS !! urgency); [done|]. by rewrite Hinherited.
  - intros Hunknown Hplain. by rewrite Hunknown, Hplain.
Qed.

(** Every record handed to [onBulkAddEvents] has an urgency that is a
    key of [URGENCY_CONFIGS], a name every object inherits or
    ['Medium'], a department and an assignee that are absent or the
    identifier of a listed department or user; and there are fewer
    records than lines. *)
Theorem import_records_well_formed
    (p : Props) (st : State) (newEvents : list PartialEvent.t) :
  (handleImportCSV p st).2 = Some (onBulkAddEvents newEvents) →
  Forall (λ r,
    (is_Some (URGENCY_CONFIGS !! PartialEvent.urgency r)
     ∨ inheritedName (PartialEvent.urgency r) = true
     ∨ PartialEvent.urgency r = "Medium")
    ∧ (∀ deptId, PartialEvent.departmentId r = Some deptId →
         ∃ d, d ∈ departments p ∧ Department.id d = deptId)
    ∧ (∀ userId, PartialEvent.assigneeId r = Some userId →
         ∃ u, u ∈ users p ∧ User.id u = userId)) newEvents
  ∧ (length newEvents < length (split newline (trim (importText st))))%nat.
Proof.
  intros [Hlen ->]%handleImportCSV_records.
  set (lines := split newline (trim (importText st))) in *. split.
  - apply Forall_forall. intros r [rawLine [_ Hrow]]%list_elem_of_omap.
    rewrite importLine_cols in Hrow. cbv zeta in Hrow.
    destruct (length (parseCSVLine (trim rawLine)) <? 3)%nat; [done|].
    injection Hrow as <-. simpl. split; [|split].
    + unfold coerceUrgency, urgencyKnown.
      set (urgency := default EmptyString _).
      destruct (URGENCY_CONFIGS !! urgency) as [config|] eqn:Hown;
        [left; by rewrite Hown|].
      destruct (inheritedName urgency) eqn:Hinherited; [right; by left|right; by right].
    + intros deptId. unfold deptIdOf.
      destruct (find _ (departments p)) as [d|] eqn:F; [|done].
      intros [= <-]. apply find_some in F as [Hin _].
      exists d. by rewrite list_elem_of_In.
    + intros userId. unfold userIdOf.
      destruct (find _ (users p)) as [u|] eqn:F; [|done].
      intros [= <-]. apply find_some in F as [Hin _].
      exists u. by rewrite list_elem_of_In.
  - pose proof (length_omap_le (importLine p) (tail lines)) as Hle.
    destruct lines as [|header rest]; [simpl in Hlen; lia|].
    simpl in *. lia.
Qed.

(** The department of an imported line is found by comparing its fifth
    field with the names as they are: a department is set exactly when
    some listed department has that very name, and it is then the
    identifier of a department with that name. *)
Theorem importLine_matches_names_exactly
    (p : Props) (rawLine : string) (r : PartialEvent.t) :
  importLine p rawLine = Some r →
  let deptName := parseCSVLine (trim rawLine) !! 4%nat in
  let userName := parseCSVLine (trim rawLine) !! 5%nat in
  (∀ deptId, PartialEvent.departmentId r = Some deptId →
     ∃ d, d ∈ departments p ∧ Department.id d = deptId
          ∧ deptName = Some (Department.name d))
  ∧ (PartialEvent.departmentId r = None →
     ∀ d, d ∈ departments p → deptName ≠ Some (Department.name d))
  ∧ (∀ userId, PartialEvent.assigneeId r = Some userId →
       ∃ u, u ∈ users p ∧ User.id u = userId ∧ userName = Some (User.name u))
  ∧ (PartialEvent.assigneeId r = None →
     ∀ u, u ∈ users p → userName ≠ Some (User.name u)).
Proof.
  rewrite importLine_cols. cbv zeta.
  destruct (length (parseCSVLine (trim rawLine)) <? 3)%nat; [done|].
  intros [= <-]. simpl. unfold deptIdOf, userIdOf.
  split; [|split; [|split]].
  - intros deptId. destruct (find _ (departments p)) as [d|] eqn:F; [|done].
    intros [= <-]. apply find_some in F as [Hin Hname].
    apply bool_decide_eq_true in Hname. exists d. by rewrite list_elem_of_In.
  - destruct (find _ (departments p)) as [d|] eqn:F; [done|]. intros _ d Hd Hname.
    apply list_elem_of_In in Hd. pose proof (find_none _ _ F d Hd) as Hno.
    simpl in Hno. apply bool_decide_eq_false in Hno. by destruct Hno.
  - intros userId. destruct (find _ (users p)) as [u|] eqn:F; [|done].
    intros [= <-]. apply find_some in F as [Hin Hname].
    apply bool_decide_eq_true in Hname. exists u. by rewrite list_elem_of_In.
  - destruct (find _ (users p)) as [u|] eqn:F; [done|]. intros _ u Hu Hname.
    apply list_elem_of_In in Hu. pose proof (find_none _ _ F u Hu) as Hno.
    simpl in Hno. apply bool_decide_eq_false in Hno. by destruct Hno.
Qed.

(** What the import makes of a text whose first line starts with a unit
    that is not white space. *)
Lemma handleImportCSV_after_header p st c header rest :
  isWhiteSpace c = false →
  noLineFeed (String c header) = true →
  (handleImportCSV p (setImportText (String c header +:+ nl +:+ rest) st)).2
  = match trimEnd rest with
    | EmptyString => None
    | body => Some (onBulkAddEvents (omap (importLine p) (split newline body)))
    end.
Proof.
  intros Hc Hnl. unfold handleImportCSV. simpl importText.
  assert (Htrim : trim (String c header +:+ nl +:+ rest)
                  = match trimEnd rest with
                    | EmptyString => trimEnd (String c header)
                    | body => String c header +:+ nl +:+ body
                    end).
  { unfold trim. rewrite app_cons, trimStart_first by done. rewrite <- app_cons.
    rewrite trimEnd_app. unfold nl. rewrite app_cons, app_nil_l.
    simpl trimEnd at 1. by destruct (trimEnd rest). }
  rewrite Htrim. destruct (trimEnd rest) as [|d body] eqn:Hrest.
  - pose proof (trimEnd_nonempty c header Hc) as Hne. apply truthy_ne in Hne.
    rewrite Hne. simpl negb. cbv iota.
    rewrite split_single by (by apply noLineFeed_trimEnd). done.
  - assert (truthy (String c header +:+ nl +:+ String d body) = true) as -> by done.
    simpl negb. cbv iota.
    change (String c header +:+ nl +:+ String d body)
      with (String c header +:+ String newline (String d body)).
    rewrite split_app by done.
    assert ((length (String c header :: split newline (String d body)) <? 2)%nat = false) as ->.
    { apply Nat.ltb_ge. pose proof (split_nonempty newline (String d body)).
      destruct (split newline (String d body)); [done|simpl; lia]. }
    simpl tail. by destruct (onBulkAddEventsRejects _).
Qed.

(** The first line is never looked at: two texts that differ only in
    their first line give the same call, provided each first line
    starts with a unit that is not white space. *)
Theorem import_ignores_header (p : Props) (st : State) (header header' rest : string) :
  startsWithText header = true → noLineFeed header = true →
  startsWithText header' = true → noLineFeed header' = true →
  (handleImportCSV p (setImportText (header +:+ nl +:+ rest) st)).2
  = (handleImportCSV p (setImportText (header' +:+ nl +:+ rest) st)).2.
Proof.
  destruct header as [|c h]; [done|]. destruct header' as [|c' h']; [done|].
  simpl startsWithText. intros Hc%negb_true_iff Hh Hc'%negb_true_iff Hh'.
  by rewrite !handleImportCSV_after_header.
Qed.

(** The pasted text is cleared only when the import went through: it is
    still there whenever an error message is set, and a cleared error
    means that [onBulkAddEvents] was called and the text emptied. *)
Theorem import_keeps_text_on_error (p : Props) (st : State) :
  let out := handleImportCSV p st in
  (error out.1 ≠ EmptyString → importText out.1 = importText st)
  ∧ (error out.1 = EmptyString → is_Some out.2 ∧ importText out.1 = EmptyString)
  ∧ (out.2 = None → error out.1 ≠ EmptyString).
Proof.
  cbv zeta. unfold handleImportCSV.
  destruct (negb (truthy (trim (importText st)))); [by simpl|].
  destruct (length (split newline (trim (importText st))) <? 2)%nat; [by simpl|].
  destruct (onBulkAddEventsRejects _); simpl; [done|].
  split; [done|]. split; [|done]. intros _. split; [eauto|done].
Qed.

End WithRuntime.
End CodecFacts.

(** ** More on the access table *)

Module AccessFacts.
Import JS JSFacts AdminModal AdminPanel IpFacts.

Lemma filter_ne_absent (x : string) (l : list string) :
  x ∉ l → filter (λ y, y ≠ x) l = l.
Proof.
  induction l as [|y l IH]; [done|].
  intros [Hne Hnotin]%not_elem_of_cons.
  rewrite filter_cons_True by done. f_equal. by apply IH.
Qed.

(** An elevated address is accepted exactly when it is not blank and not
    yet in the list, compared as typed; it is then appended at the end,
    the mappings are untouched and the form is cleared. A rejected
    address stays in the form next to a message. *)
Theorem addDesignerIp_accepts_iff (p : Props) (newDesignerIp error : string) :
  let out := handleAddDesignerIp p newDesignerIp error in
  (is_Some out.2 ↔ trim newDesignerIp ≠ EmptyString ∧ newDesignerIp ∉ currentIps p)
  ∧ (∀ config, out.2 = Some config →
       IpAccessConfig.designerIps config = Some (currentIps p ++ [newDesignerIp])
       ∧ IpAccessConfig.departmentIps config = IpAccessConfig.departmentIps (ipConfig p)
       ∧ out.1 = (EmptyString, EmptyString))
  ∧ (out.2 = None → out.1.1 = newDesignerIp ∧ out.1.2 ≠ EmptyString).
Proof.
  cbv zeta. unfold handleAddDesignerIp.
  destruct (truthy (trim newDesignerIp)) eqn:Hblank; simpl negb; cbv iota.
  - apply truthy_ne in Hblank. case_bool_decide as Hin; simpl.
    + split; [|split]; [|done|done]. split; [by intros [? ?]|]. by intros [_ ?].
    + split; [|split]; [|by intros config [= <-]|done]. split; [done|eauto].
  - apply truthy_false in Hblank. simpl.
    split; [|split]; [|done|done]. split; [by intros [? ?]|]. by intros [? _].
Qed.

(** Adding an elevated address keeps the list free of duplicates. *)
Theorem addDesignerIp_keeps_distinct
    (p : Props) (newDesignerIp error : string) (config : IpAccessConfig.t) :
  NoDup (currentIps p) →
  (handleAddDesignerIp p newDesignerIp error).2 = Some config →
  NoDup (currentIps (withIpConfig config p)).
Proof.
  intros Hnd. unfold handleAddDesignerIp.
  destruct (negb (truthy (trim newDesignerIp))); [done|].
  case_bool_decide as Hin; [done|]. intros [= <-].
  unfold currentIps at 1. simpl.
  apply NoDup_app. split; [done|]. split; [|apply NoDup_singleton].
  intros ip Hip ->%list_elem_of_singleton. done.
Qed.

(** Removing an elevated address takes out every occurrence of it and
    nothing else: the other addresses stay, in their order, the
    mappings are untouched, and removing an absent address changes
    nothing. *)
Theorem removeDesignerIp_removes (p : Props) (ipToRemove : string) :
  let after := currentIps (withIpConfig (handleRemoveDesignerIp p ipToRemove) p) in
  (ipToRemove ∉ after)
  ∧ (∀ ip, ip ≠ ipToRemove → (ip ∈ after ↔ ip ∈ currentIps p))
  ∧ (after `sublist_of` currentIps p)
  ∧ (ipToRemove ∉ currentIps p → after = currentIps p)
  ∧ IpAccessConfig.departmentIps (handleRemoveDesignerIp p ipToRemove)
    = IpAccessConfig.departmentIps (ipConfig p).
Proof.
  cbv zeta. unfold currentIps at 1 2 3 4. simpl. fold (currentIps p).
  split; [|split; [|split; [|split]]].
  - intros [Hne _]%list_elem_of_filter. by destruct Hne.
  - intros ip Hne. rewrite list_elem_of_filter. tauto.
  - apply sublist_filter.
  - apply filter_ne_absent.
  - done.
Qed.

(** An accepted elevated address, removed again, leaves the list as it
    was before it was added. *)
Theorem add_then_remove_designerIp
    (p : Props) (newDesignerIp error : string) (config : IpAccessConfig.t) :
  (handleAddDesignerIp p newDesignerIp error).2 = Some config →
  currentIps (withIpConfig (handleRemoveDesignerIp (withIpConfig config p) newDesignerIp)
                (withIpConfig config p))
  = currentIps p.
Proof.
  unfold handleAddDesignerIp.
  destruct (negb (truthy (trim newDesignerIp))); [done|].
  case_bool_decide as Hin; [done|]. intros [= <-].
  change (filter (λ ip, ip ≠ newDesignerIp) (currentIps p ++ [newDesignerIp])
          = currentIps p).
  rewrite filter_app. rewrite filter_cons_False by (by intros ?). rewrite filter_nil.
  rewrite List.app_nil_r. by apply filter_ne_absent.
Qed.

Lemma lookup_deleteIpMappings ips : ∀ p ip,
  IpAccessConfig.departmentIps (ipConfig (deleteIpMappings p ips)) !! ip
  = if decide (ip ∈ ips) then None
    else IpAccessConfig.departmentIps (ipConfig p) !! ip.
Proof.
  induction ips as [|x ips IH]; intros p ip.
  - case_decide as Hin; [by apply elem_of_nil in Hin|done].
  - unfold deleteIpMappings. simpl foldl. fold (deleteIpMappings
      (withIpConfig (handleDeleteIpMapping p x) p) ips).
    rewrite IH. simpl.
    destruct (decide (ip ∈ ips)) as [Hin|Hnotin].
    + by rewrite decide_True by (rewrite elem_of_cons; tauto).
    + destruct (decide (ip = x)) as [->|Hne].
      * rewrite decide_True by (rewrite elem_of_cons; tauto). apply lookup_delete_eq.
      * rewrite decide_False by (rewrite elem_of_cons; tauto).
        by apply lookup_delete_ne.
Qed.

(** Deleting the mapping of an address unmaps that address and no
    other, leaves the elevated addresses alone, and changes nothing
    when the address had no mapping. *)
Theorem deleteIpMapping_removes_one (p : Props) (ip : string) :
  let config := handleDeleteIpMapping p ip in
  IpAccessConfig.departmentIps config !! ip = None
  ∧ (∀ other, other ≠ ip →
       IpAccessConfig.departmentIps config !! other
       = IpAccessConfig.departmentIps (ipConfig p) !! other)
  ∧ (IpAccessConfig.departmentIps (ipConfig p) !! ip = None →
     IpAccessConfig.departmentIps config = IpAccessConfig.departmentIps (ipConfig p))
  ∧ IpAccessConfig.designerIps config = IpAccessConfig.designerIps (ipConfig p).
Proof.
  cbv zeta. simpl. split; [apply lookup_delete_eq|]. split; [|split; [|done]].
  - intros other Hne. by apply lookup_delete_ne.
  - apply delete_id.
Qed.

(** The batch of [handleAddIpMapping] is all or nothing. With a
    department identifier given and the stored identifiers non-empty,
    let the batch be the addresses read from the text by splitting at
    commas and white space. If some address of the batch has a mapping
    or is a name every object inherits, no call is made, the
    configuration stays as it was and a message is shown. If no address
    has a mapping or is such a name, every address of the batch maps to
    the given identifier afterwards and every other address is as
    before. *)
Theorem mapping_batch_all_or_nothing (p : Props) (st : State) :
  let m := IpAccessConfig.departmentIps (ipConfig p) in
  let ips := ipsToAdd (newMapIp st) in
  let out := handleAddIpMapping p st in
  let m' := IpAccessConfig.departmentIps (ipConfigAfter p out) in
  (∀ ip deptId, m !! ip = Some deptId → deptId ≠ EmptyString) →
  newMapDeptId st ≠ EmptyString →
  ((∃ ip, ip ∈ ips ∧ (is_Some (m !! ip) ∨ inheritedName ip = true)) →
   out.2 = None ∧ ipConfigAfter p out = ipConfig p ∧ error out.1 ≠ EmptyString)
  ∧ ((∀ ip, ip ∈ ips → m !! ip = None ∧ inheritedName ip = false) →
     (∀ ip, ip ∈ ips → m' !! ip = Some (newMapDeptId st))
     ∧ (∀ ip, ip ∉ ips → m' !! ip = m !! ip)
     ∧ IpAccessConfig.designerIps (ipConfigAfter p out)
       = IpAccessConfig.designerIps (ipConfig p)).
Proof.
  intros m ips out m' Hwf Hdept. split.
  - intros (ip & Hin & Hmapped). apply handleAddIpMapping_refused; [done|].
    exists ip. split; [done|]. by apply ipMapped_true.
  - intros Hfree. subst m' out.
    destruct (decide (trim (newMapIp st) = EmptyString)) as [Hblank|Hip].
    + unfold handleAddIpMapping, ipConfigAfter.
      rewrite (proj2 (truthy_false _) Hblank). simpl.
      subst ips. rewrite (ipsToAdd_blank _ Hblank).
      split; [|by split]. intros ip Hin. by apply elem_of_nil in Hin.
    + rewrite handleAddIpMapping_written; [|done|done|].
      * unfold ipConfigAfter. simpl. fold m. fold ips. repeat split.
        -- intros ip Hin. rewrite lookup_foldl_insert. by rewrite decide_True.
        -- intros ip Hnotin. rewrite lookup_foldl_insert. by rewrite decide_False.
      * intros ip Hin. destruct (Hfree ip Hin). by apply ipMapped_false.
Qed.

(** A batch of addresses that had no mapping, added and then deleted
    one address at a time, leaves the map exactly as it was. *)
Theorem add_then_delete_mappings (p : Props) (st : State) (config : IpAccessConfig.t) :
  (handleAddIpMapping p st).2 = Some (onUpdateIpConfig config) →
  (∀ ip, ip ∈ ipsToAdd (newMapIp st) →
         IpAccessConfig.departmentIps (ipConfig p) !! ip = None) →
  IpAccessConfig.departmentIps
    (ipConfig (deleteIpMappings (withIpConfig config p) (ipsToAdd (newMapIp st))))
  = IpAccessConfig.departmentIps (ipConfig p).
Proof.
  intros Hcall Hfresh. apply map_eq. intros ip.
  rewrite lookup_deleteIpMappings.
  unfold handleAddIpMapping in Hcall.
  destruct (negb (truthy (trim (newMapIp st))) || negb (truthy (newMapDeptId st)));
    [done|].
  destruct (bool_decide _); [done|]. simpl in Hcall. injection Hcall as <-.
  simpl. rewrite lookup_foldl_insert.
  destruct (decide (ip ∈ ipsToAdd (newMapIp st))) as [Hin|Hnotin]; [|done].
  symmetry. by apply Hfresh.
Qed.

(** Once the mapping of an address is deleted, mapping that address
    again is accepted, and only that address changes, provided that the
    address is not a name every object inherits: such a name is refused
    whether or not the map holds it. *)
Theorem readd_after_delete_accepted (p : Props) (st : State) (ip : string) :
  ipsToAdd (newMapIp st) = [ip] →
  newMapDeptId st ≠ EmptyString →
  inheritedName ip = false →
  ∃ config,
    (handleAddIpMapping (withIpConfig (handleDeleteIpMapping p ip) p) st).2
    = Some (onUpdateIpConfig config)
    ∧ IpAccessConfig.departmentIps config !! ip = Some (newMapDeptId st)
    ∧ ∀ other, other ≠ ip →
        IpAccessConfig.departmentIps config !! other
        = IpAccessConfig.departmentIps (ipConfig p) !! other.
Proof.
  intros Hips Hdept Hplain. unfold handleAddIpMapping. rewrite Hips.
  apply truthy_ne in Hdept. rewrite Hdept.
  destruct (truthy (trim (newMapIp st))) eqn:Hip.
  - simpl negb. simpl orb. cbv iota. simpl ipConfig.
    unfold handleDeleteIpMapping at 1. simpl IpAccessConfig.departmentIps.
    rewrite filter_cons_False.
    + rewrite filter_nil. simpl. eexists. split; [reflexivity|]. simpl. split.
      * apply lookup_insert_eq.
      * intros other Hne. rewrite lookup_insert_ne by done. by apply lookup_delete_ne.
    + unfold ipMapped. rewrite lookup_delete_eq. by rewrite Hplain.
  - apply truthy_false in Hip. rewrite (ipsToAdd_blank _ Hip) in Hips. done.
Qed.

Lemma splitRuns_go_pieces s : ∀ cur inRun,
  allChars (λ c, negb (isIpSeparator c)) cur = true →
  Forall (λ piece, allChars (λ c, negb (isIpSeparator c)) piece = true)
    (splitRuns_go isIpSeparator s cur inRun).
Proof.
  induction s as [|c s IH]; intros cur inRun Hcur.
  - by apply Forall_cons_2.
  - simpl. destruct (isIpSeparator c) eqn:Hc.
    + destruct inRun; [by apply IH|]. apply Forall_cons_2; [done|by apply IH].
    + apply IH. rewrite allChars_app, Hcur. simpl. by rewrite Hc.
Qed.

(** Every address read from the text of the mapping form is non-empty
    and holds neither a comma nor white space. *)
Theorem ipsToAdd_addresses (text : string) :
  Forall (λ ip, ip ≠ EmptyString
                ∧ allChars (λ c, negb (isIpSeparator c)) ip = true)
    (ipsToAdd text).
Proof.
  unfold ipsToAdd, splitRuns.
  pose proof (splitRuns_go_pieces text EmptyString false eq_refl) as Hall.
  induction Hall as [|piece pieces Hpiece _ IH]; [constructor|].
  rewrite filter_cons. case_decide as Hkeep; [|exact IH].
  apply Forall_cons_2; [|exact IH]. split; [|done].
  intros ->. by apply Hkeep.
Qed.

End AccessFacts.

(** ** More on the user form *)

Module UserFormFacts.
Import JS JSFacts AdminModal AdminPanel.

Section WithRuntime.
Context {rt : Runtime}.

(** With a blank name, a blank e-mail address, or neither emoji nor
    photo, the user form only shows a message: nothing is uploaded,
    [onAddUser] is not called and the rest of the form is untouched. *)
Theorem addSubmit_rejects_incomplete_form (st : State) :
  (trim (newName st) = EmptyString ∨ trim (newEmail st) = EmptyString
   ∨ (selectedEmoji st = EmptyString ∧ avatarFile st = None)) →
  ∃ msg, msg ≠ EmptyString ∧ handleAddSubmit st = (setError msg st, None).
Proof.
  unfold handleAddSubmit. intros Hcase.
  destruct (truthy (trim (newName st))) eqn:Hname; simpl negb; simpl orb.
  - destruct (truthy (trim (newEmail st))) eqn:Hemail; simpl negb; cbv iota.
    + apply truthy_ne in Hname, Hemail.
      destruct Hcase as [?|[?|[Hemoji Hfile]]]; [done|done|].
      rewrite Hemoji, Hfile. simpl. eexists. split; [|reflexivity]. done.
    + eexists. split; [|reflexivity]. done.
  - eexists. split; [|reflexivity]. done.
Qed.

(** The user form is emptied only on success. After the handler the
    upload flag is down; whenever an error message is shown (a failed
    check, a failed upload, a rejected [onAddUser]) name, e-mail, emoji
    and photo are still in the form; and when no error is shown
    [onAddUser] was called and the form is empty. *)
Theorem addSubmit_keeps_form_on_failure (st : State) :
  let out := handleAddSubmit st in
  isUploading st = false →
  (isUploading out.1 = false)
  ∧ (error out.1 ≠ EmptyString →
     newName out.1 = newName st ∧ newEmail out.1 = newEmail st
     ∧ selectedEmoji out.1 = selectedEmoji st ∧ avatarFile out.1 = avatarFile st)
  ∧ (error out.1 = EmptyString →
     is_Some out.2
     ∧ newName out.1 = EmptyString ∧ newEmail out.1 = EmptyString
     ∧ selectedEmoji out.1 = EmptyString ∧ avatarFile out.1 = None
     ∧ uploadPreview out.1 = EmptyString).
Proof.
  cbv zeta. destruct st as [it name0 email0 emoji0 file0 up0 prev0 ip0 dept0 err0].
  unfold handleAddSubmit.
  cbn [newName newEmail selectedEmoji avatarFile setIsUploading isUploading].
  intros ->.
  destruct (negb (truthy (trim name0)) || negb (truthy (trim email0))); [by simpl|].
  destruct (negb (truthy emoji0) && negb (bool_decide (is_Some file0))); [by simpl|].
  destruct (match file0 with Some f => uploadAvatar f | None => inl EmptyString end)
    as [url|msg]; [|by simpl].
  destruct (onAddUserRejects _ _ _ _); simpl; [done|].
  split; [done|]. split; [done|]. intros _. split; [eauto|done].
Qed.

(** Choosing a photo discards the emoji chosen before: submitting right
    after, with name and e-mail filled in and a working upload, passes
    the fallback glyph together with the URL of the photo. *)
Theorem fileSelect_then_submit_uses_fallback
    (st : State) (file : File) (files : list File) (avatarUrl : string) :
  trim (newName st) ≠ EmptyString →
  trim (newEmail st) ≠ EmptyString →
  uploadAvatar file = inl avatarUrl →
  (handleAddSubmit (handleFileSelect (file :: files) st)).2
  = Some (onAddUser (newName st) (newEmail st) fallbackEmoji avatarUrl).
Proof.
  destruct st as [it name0 email0 emoji0 file0 up0 prev0 ip0 dept0 err0].
  unfold handleAddSubmit, handleFileSelect.
  cbn [newName newEmail selectedEmoji avatarFile setIsUploading setSelectedEmoji
       setAvatarFile].
  intros Hname%truthy_ne Hemail%truthy_ne Hup.
  rewrite Hname, Hemail, Hup. cbn [negb orb truthy andb].
  by destruct (onAddUserRejects _ _ _ _).
Qed.

(** In the list of users, a user who carries the emoji passed by the
    form is drawn with that emoji, never with the image, also when a
    photo was uploaded. *)
Theorem created_user_shows_emoji
    (st : State) (name email emoji avatarUrl : string) (user : User.t) :
  (handleAddSubmit st).2 = Some (onAddUser name email emoji avatarUrl) →
  User.emoji user = emoji →
  avatarView user = showEmoji emoji.
Proof.
  destruct st as [it name0 email0 emoji0 file0 up0 prev0 ip0 dept0 err0].
  unfold handleAddSubmit, avatarView.
  cbn [newName newEmail selectedEmoji avatarFile setIsUploading].
  destruct (negb (truthy (trim name0)) || negb (truthy (trim email0))); [done|].
  destruct (negb (truthy emoji0) && negb (bool_decide (is_Some file0))); [done|].
  destruct (match file0 with Some f => uploadAvatar f | None => inl EmptyString end)
    as [url|msg]; [|done].
  intros Hcall ->.
  assert (Hemoji : emoji = if truthy emoji0 then emoji0 else fallbackEmoji).
  { destruct (onAddUserRejects _ _ _ _); simpl in Hcall; by injection Hcall. }
  rewrite Hemoji. by destruct (truthy emoji0) eqn:E; [rewrite E|].
Qed.

End WithRuntime.
End UserFormFacts.

(** ** More on the announcement board *)

Module BoardFacts.
Import JS JSFacts AdminModal AdminPanel AnnouncementForm.

Lemma startsWithSpace_trimStart s : startsWithSpace (trimStart s) = false.
Proof.
  induction s as [|c s IH]; [done|]. simpl.
  destruct (isWhiteSpace c) eqn:E; [exact IH|]. simpl. exact E.
Qed.

Lemma startsWithSpace_trimEnd s :
  startsWithSpace s = false → startsWithSpace (trimEnd s) = false.
Proof.
  destruct s as [|c s]; [done|]. simpl. intros Hc.
  destruct (trimEnd s); [by rewrite Hc|done].
Qed.

Lemma endsWithSpace_trimEnd s : endsWithSpace (trimEnd s) = false.
Proof.
  induction s as [|c s IH]; [done|]. simpl.
  destruct (trimEnd s) as [|d r].
  - destruct (isWhiteSpace c) eqn:E; [done|]. simpl. exact E.
  - exact IH.
Qed.

Lemma trim_trimmed s :
  startsWithSpace (trim s) = false ∧ endsWithSpace (trim s) = false.
Proof.
  unfold trim. split.
  - apply startsWithSpace_trimEnd, startsWithSpace_trimStart.
  - apply endsWithSpace_trimEnd.
Qed.

(** An announcement is published exactly when title and content are not
    blank; what is passed to [onAdd] is then the trimmed title and
    content, neither empty nor with white space at either end, and the
    form is emptied and closed. Otherwise nothing happens. *)
Theorem handleAdd_publishes_trimmed (c : Cells) :
  let out := handleAdd c in
  (is_Some out.2 ↔ trim (newTitle c) ≠ EmptyString ∧ trim (newContent c) ≠ EmptyString)
  ∧ (out.2 = None → out.1 = c)
  ∧ (∀ title content, out.2 = Some (title, content) →
       title = trim (newTitle c) ∧ content = trim (newContent c)
       ∧ title ≠ EmptyString ∧ content ≠ EmptyString
       ∧ startsWithSpace title = false ∧ endsWithSpace title = false
       ∧ startsWithSpace content = false ∧ endsWithSpace content = false
       ∧ out.1 = mkCells false EmptyString EmptyString).
Proof.
  cbv zeta. unfold handleAdd.
  destruct (truthy (trim (newTitle c))) eqn:Ht;
    destruct (truthy (trim (newContent c))) eqn:Hc; simpl.
  - apply truthy_ne in Ht, Hc. split; [split; [done|eauto]|]. split; [done|].
    intros title content [= <- <-].
    destruct (trim_trimmed (newTitle c)), (trim_trimmed (newContent c)). done.
  - apply truthy_false in Hc. split; [|done]. split; [by intros [? ?]|]. by intros [_ ?].
  - apply truthy_false in Ht. split; [|done]. split; [by intros [? ?]|]. by intros [? _].
  - apply truthy_false in Ht. split; [|done]. split; [by intros [? ?]|]. by intros [? _].
Qed.

End BoardFacts.

(** ** The confirmation of the deletion of all events *)

Module ConfirmFacts.
Import AdminPanel.

Lemma confirmStep_inv st ev :
  confirmInv st → confirmInv (confirmStep st ev).1.
Proof.
  unfold confirmInv. intros Hinv. destruct ev; simpl.
  - destruct (isDeleteConfirming st); simpl; intros; [discriminate|lia].
  - destruct (pendingTimers st) eqn:E; simpl; intros Harmed; [|discriminate].
    specialize (Hinv Harmed). lia.
Qed.

Lemma confirmStep_arms st ev st' deleted :
  confirmInv st →
  confirmStep st ev = (st', deleted) →
  isDeleteConfirming st' = true →
  ev = click ∧ deleted = false.
Proof.
  unfold confirmInv. intros Hinv. destruct ev; simpl.
  - destruct (isDeleteConfirming st); intros [= <- <-]; done.
  - destruct (pendingTimers st); intros [= <- <-]; [|done].
    intros Harmed. specialize (Hinv Harmed). lia.
Qed.

Lemma confirmStep_deletes st ev st' :
  confirmStep st ev = (st', true) → ev = click ∧ isDeleteConfirming st = true.
Proof.
  destruct ev; simpl.
  - by destruct (isDeleteConfirming st).
  - by destruct (pendingTimers st).
Qed.

Lemma confirmRun_deleted evs : ∀ st i,
  confirmInv st →
  confirmRun st evs !! i = Some true →
  evs !! i = Some click
  ∧ ((i = 0%nat ∧ isDeleteConfirming st = true)
     ∨ ∃ j, i = S j ∧ evs !! j = Some click ∧ confirmRun st evs !! j = Some false).
Proof.
  induction evs as [|ev evs IH]; intros st i Hinv Hi; [done|].
  simpl in Hi. simpl confirmRun.
  destruct (confirmStep st ev) as [st' deleted] eqn:Hstep.
  destruct i as [|i].
  - simpl in Hi. injection Hi as ->.
    destruct (confirmStep_deletes _ _ _ Hstep) as [-> Harmed]. split; [done|]. by left.
  - simpl in Hi.
    assert (Hinv' : confirmInv st').
    { pose proof (confirmStep_inv st ev Hinv) as H. by rewrite Hstep in H. }
    destruct (IH st' i Hinv' Hi) as [Hclick Hprev]. split; [exact Hclick|].
    right. exists i. split; [done|].
    destruct Hprev as [[-> Harmed]|(j & -> & Hj & Hout)].
    + destruct (confirmStep_arms _ _ _ _ Hinv Hstep Harmed) as [-> ->]. done.
    + done.
Qed.

Lemma confirmRun_app evs1 : ∀ st evs2,
  confirmRun st (evs1 ++ evs2)
  = confirmRun st evs1 ++ confirmRun (foldl (λ s ev, (confirmStep s ev).1) st evs1) evs2.
Proof.
  induction evs1 as [|ev evs1 IH]; intros st evs2; [done|].
  simpl. destruct (confirmStep st ev) as [st' deleted] eqn:Hstep. simpl.
  by rewrite IH.
Qed.

(** In any sequence of clicks on the delete-all button and of timers
    firing, starting with no confirmation pending, [onDeleteAllEvents]
    is only called by a click that comes directly after another click
    which did not delete, with no timer firing between the two; and two
    clicks in a row always delete exactly once. *)
Theorem deleteAll_needs_two_clicks (evs : list ConfirmEvent) :
  (∀ i, confirmRun confirmInitial evs !! i = Some true →
        evs !! i = Some click
        ∧ ∃ j, i = S j ∧ evs !! j = Some click
               ∧ confirmRun confirmInitial evs !! j = Some false)
  ∧ (∃ before,
       confirmRun confirmInitial (evs ++ [click; click]) = before ++ [false; true]
       ∨ confirmRun confirmInitial (evs ++ [click; click]) = before ++ [true; false]).
Proof.
  split.
  - intros i Hi.
    destruct (confirmRun_deleted evs confirmInitial i) as [Hclick [[_ ?]|Hprev]];
      [done|done|done|].
    by split.
  - rewrite confirmRun_app.
    exists (confirmRun confirmInitial evs).
    destruct (foldl _ confirmInitial evs) as [[|] n]; simpl; [by right|by left].
Qed.

End ConfirmFacts.

(** ** The lists sorted for display *)

Module SortFacts.
Import JS JSFacts AdminModal AdminPanel AnnouncementForm AnnouncementFacts.

Section Sort.
Context {A : Type} (time : A → Z).

Lemma insertNewest_perm x l : insertNewest time x l ≡ₚ x :: l.
Proof.
  induction l as [|y l IH]; [done|]. simpl.
  destruct (time y <=? time x); [done|].
  rewrite IH. apply Permutation_swap.
Qed.

Lemma sortNewestFirst_perm l : sortNewestFirst time l ≡ₚ l.
Proof.
  induction l as [|x l IH]; [done|].
  unfold sortNewestFirst in *. simpl. rewrite insertNewest_perm. by rewrite IH.
Qed.

Lemma insertNewest_sorted x l :
  StronglySorted (λ a b, time b ≤ time a) l →
  StronglySorted (λ a b, time b ≤ time a) (insertNewest time x l).
Proof.
  induction 1 as [|y l Hsorted IH Hall]; simpl.
  - repeat constructor.
  - destruct (time y <=? time x) eqn:E.
    + apply Z.leb_le in E. constructor; [by constructor|].
      constructor; [done|]. eapply Forall_impl; [exact Hall|]. simpl. intros; lia.
    + apply Z.leb_gt in E. constructor; [exact IH|].
      rewrite insertNewest_perm. constructor; [lia|exact Hall].
Qed.

Lemma sortNewestFirst_sorted l :
  StronglySorted (λ a b, time b ≤ time a) (sortNewestFirst time l).
Proof.
  induction l as [|x l IH]; [constructor|].
  unfold sortNewestFirst in *. simpl. by apply insertNewest_sorted.
Qed.

Lemma insertNewest_same_time t x l :
  filter (λ a, time a = t) (insertNewest time x l)
  = filter (λ a, time a = t) (x :: l).
Proof.
  induction l as [|y l IH]; [reflexivity|]. simpl insertNewest.
  destruct (time y <=? time x) eqn:E; [reflexivity|]. apply Z.leb_gt in E.
  rewrite (filter_cons _ y), IH, !(filter_cons _ x), (filter_cons _ y).
  destruct (decide (time y = t)) as [Hy|Hy], (decide (time x = t)) as [Hx|Hx];
    try reflexivity; lia.
Qed.

Lemma sortNewestFirst_stable t l :
  filter (λ a, time a = t) (sortNewestFirst time l) = filter (λ a, time a = t) l.
Proof.
  induction l as [|x l IH]; [done|].
  unfold sortNewestFirst in *. simpl foldr. rewrite insertNewest_same_time.
  by rewrite !(filter_cons _ x), IH.
Qed.

End Sort.

(** The campaigns are listed newest first: the list shown holds the
    same events as the calendar, no date in it is older than a later
    one, and events of the same instant keep their order. *)
Theorem sortedEvents_newest_first (p : Props) (sorted : list CalendarEvent.t) :
  sortedEvents p = Some sorted →
  sorted ≡ₚ events p
  ∧ StronglySorted
      (λ a b, timeOf (CalendarEvent.date b) ≤ timeOf (CalendarEvent.date a)) sorted
  ∧ ∀ t, filter (λ ev, timeOf (CalendarEvent.date ev) = t) sorted
         = filter (λ ev, timeOf (CalendarEvent.date ev) = t) (events p).
Proof.
  unfold sortedEvents. destruct (forallb _ (events p)); [|done]. intros [= <-].
  split; [apply sortNewestFirst_perm|]. split; [apply sortNewestFirst_sorted|].
  intros t. apply (sortNewestFirst_stable (λ ev, timeOf (CalendarEvent.date ev))).
Qed.

Section WithRuntime.
Context {rt : Runtime}.

(** Whatever the order in which the announcements arrive, the effect of
    the open modal, run over the sorted list, calls [onMarkAsRead] for
    the unread announcements and for no other, and once for each when
    their identifiers are distinct. *)
Theorem markUnread_over_sorted
    (now : Z) (announcements sorted : list Announcement.t) (viewer : option string) :
  sortedAnnouncements announcements = Some sorted →
  let marked := AnnouncementModal.markUnreadEffect now true sorted viewer in
  sorted ≡ₚ announcements
  ∧ marked ≡ₚ Announcement.id
               <$> filter (λ a, AnnouncementModal.isUnread now a viewer = true)
                     announcements
  ∧ (NoDup (Announcement.id <$> announcements) → NoDup marked).
Proof.
  unfold sortedAnnouncements. destruct (forallb _ announcements); [|done].
  intros [= <-]. cbv zeta. rewrite markUnreadEffect_filter.
  set (time := λ a, timeOf (Announcement.createdAt a)).
  pose proof (sortNewestFirst_perm time announcements) as Hperm.
  split; [exact Hperm|]. split; [by rewrite Hperm|].
  intros Hnd. rewrite Hperm.
  eapply sublist_NoDup; [exact Hnd|].
  apply fmap_sublist, sublist_filter.
Qed.

End WithRuntime.
End SortFacts.

(** ** Instances of the further properties *)

Module MoreInstances.
Import JS JSFacts AdminModal AdminPanel AnnouncementForm.

Lemma parseCSVLine_join_safe_witness :
  parseCSVLine (JS.join "," (safe <$> [Sample.saleTitle; "a,b"; EmptyString]))
  = [Sample.saleTitle; "a,b"; EmptyString].
Proof. apply CodecFacts.parseCSVLine_join_safe. discriminate. Defined.

Lemma parseCSVLine_without_quotes_witness :
  parseCSVLine "Bahar, yaz,,kış" = split comma "Bahar, yaz,,kış".
Proof. apply CodecFacts.parseCSVLine_without_quotes. by_evaluation. Defined.

Lemma importLine_rowText_witness :
  @importLine SampleRuntime.runtime (Sample.props [])
    (@rowText (Sample.props []) Sample.sale "2024-01-15")
  = Some (PartialEvent.mk Sample.saleTitle
            (@newDate SampleRuntime.runtime "2024-01-15")
            (@coerceUrgency SampleRuntime.runtime "High")
            (Some "Kış indirimi")
            (deptIdOf Sample.departments (Some "Pazarlama, Dijital"))
            (userIdOf Sample.users (Some "Ayşe Kaya"))).
Proof.
  apply (@RoundTripFacts.importLine_rowText SampleRuntime.runtime (Sample.props [])
           Sample.sale "2024-01-15"); by_evaluation.
Defined.

Lemma importLine_urgency_witness :
  ∃ r urgency,
    parseCSVLine (trim "Bahar kampanyası,yakında,Acil") !! 2%nat = Some urgency
    ∧ @importLine SampleRuntime.runtime (Sample.props []) "Bahar kampanyası,yakında,Acil"
      = Some r
    ∧ (is_Some (@URGENCY_CONFIGS SampleRuntime.runtime !! urgency)
       ∨ inheritedName urgency = true →
       PartialEvent.urgency r = urgency)
    ∧ (@URGENCY_CONFIGS SampleRuntime.runtime !! urgency = None →
       inheritedName urgency = false →
       PartialEvent.urgency r = "Medium").
Proof.
  apply (@CodecFacts.importLine_urgency SampleRuntime.runtime (Sample.props [])
           "Bahar kampanyası,yakında,Acil").
  apply Nat.leb_le. by_evaluation.
Defined.

Lemma import_records_well_formed_witness :
  Forall (λ r,
    (is_Some (@URGENCY_CONFIGS SampleRuntime.runtime !! PartialEvent.urgency r)
     ∨ inheritedName (PartialEvent.urgency r) = true
     ∨ PartialEvent.urgency r = "Medium")
    ∧ (∀ deptId, PartialEvent.departmentId r = Some deptId →
         ∃ d, d ∈ Sample.departments ∧ Department.id d = deptId)
    ∧ (∀ userId, PartialEvent.assigneeId r = Some userId →
         ∃ u, u ∈ Sample.users ∧ User.id u = userId))
    [Sample.springRecord; Sample.saleRecord]
  ∧ (2 < length (split newline (trim (importText Sample.pastedForm))))%nat.
Proof.
  apply (@CodecFacts.import_records_well_formed SampleRuntime.runtime (Sample.props [])
           Sample.pastedForm [Sample.springRecord; Sample.saleRecord]).
  by_evaluation.
Defined.

Lemma importLine_matches_names_witness :
  ∃ d, d ∈ Sample.departments ∧ Department.id d = "d1"
       ∧ Some "Satış" = Some (Department.name d).
Proof.
  destruct (@CodecFacts.importLine_matches_names_exactly SampleRuntime.runtime
              (Sample.props [])
              (safe Sample.saleTitle +:+ ",2024-01-15,High,,Satış,Mehmet Demir")
              Sample.saleRecord) as (Hdept & _); [by_evaluation|].
  exact (Hdept "d1" eq_refl).
Defined.

Lemma import_ignores_header_witness :
  (@handleImportCSV SampleRuntime.runtime (Sample.props [])
     (setImportText (csvHeader +:+ nl +:+ "Yaz,2024-07-01,Low") initialState)).2
  = (@handleImportCSV SampleRuntime.runtime (Sample.props [])
       (setImportText ("Başlık;Tarih" +:+ nl +:+ "Yaz,2024-07-01,Low") initialState)).2.
Proof.
  apply (@CodecFacts.import_ignores_header SampleRuntime.runtime); by_evaluation.
Defined.

(** A blank first line is trimmed away, and the line after it is then
    the one that is skipped as header. *)
Example import_blank_header_swallows_a_line :
  (@handleImportCSV SampleRuntime.runtime (Sample.props [])
     (setImportText (nl +:+ "Yaz,2024-07-01,Low" +:+ nl +:+ "Kış,2024-12-01,High")
        initialState)).2
  = Some (onBulkAddEvents
            [PartialEvent.mk "Kış" (ValidDate 1733011200000) "High" None None None]).
Proof. by_evaluation. Qed.

Lemma addDesignerIp_keeps_distinct_witness :
  NoDup (currentIps (withIpConfig SamplePanel.withNewAddress (Sample.props []))).
Proof.
  apply (AccessFacts.addDesignerIp_keeps_distinct (Sample.props []) "10.0.0.8" EmptyString).
  - apply (bool_decide_unpack _). by_evaluation.
  - by_evaluation.
Defined.

Lemma add_then_remove_designerIp_witness :
  currentIps
    (withIpConfig
       (handleRemoveDesignerIp (withIpConfig SamplePanel.withNewAddress (Sample.props [])) "10.0.0.8")
       (withIpConfig SamplePanel.withNewAddress (Sample.props [])))
  = currentIps (Sample.props []).
Proof.
  apply (AccessFacts.add_then_remove_designerIp (Sample.props []) "10.0.0.8" EmptyString).
  by_evaluation.
Defined.

Lemma add_then_delete_mappings_witness :
  IpAccessConfig.departmentIps
    (ipConfig (deleteIpMappings (withIpConfig SamplePanel.withTwoMappings (Sample.props []))
                 (ipsToAdd "10.0.0.2, 10.0.0.3")))
  = IpAccessConfig.departmentIps (ipConfig (Sample.props [])).
Proof.
  apply (AccessFacts.add_then_delete_mappings (Sample.props [])
           (Sample.mappingForm "10.0.0.2, 10.0.0.3" "d2") SamplePanel.withTwoMappings).
  - by_evaluation.
  - intros ip Hip. change (ip ∈ ["10.0.0.2"; "10.0.0.3"]) in Hip.
    apply elem_of_cons in Hip as [->|Hip]; [by_evaluation|].
    apply elem_of_cons in Hip as [->|Hip]; [by_evaluation|].
    by apply elem_of_nil in Hip.
Defined.

Lemma mapping_batch_witness :
  let out := handleAddIpMapping (Sample.props []) (Sample.mappingForm "10.0.0.2, 10.0.0.3" "d2") in
  let m' := IpAccessConfig.departmentIps (ipConfigAfter (Sample.props []) out) in
  m' !! "10.0.0.2" = Some "d2" ∧ m' !! "10.0.0.3" = Some "d2"
  ∧ m' !! "10.0.0.1" = Some "d1".
Proof.
  destruct (AccessFacts.mapping_batch_all_or_nothing (Sample.props [])
              (Sample.mappingForm "10.0.0.2, 10.0.0.3" "d2") sample_mapping_ids)
    as [_ Hfresh]; [discriminate|].
  destruct Hfresh as (Hin & Hout & _).
  - intros ip Hip. change (ip ∈ ["10.0.0.2"; "10.0.0.3"]) in Hip.
    apply elem_of_cons in Hip as [->|Hip]; [split; by_evaluation|].
    apply elem_of_cons in Hip as [->|Hip]; [split; by_evaluation|].
    by apply elem_of_nil in Hip.
  - cbv zeta. split; [|split].
    + apply Hin. change ("10.0.0.2" ∈ ["10.0.0.2"; "10.0.0.3"]).
      apply (bool_decide_unpack _). by_evaluation.
    + apply Hin. change ("10.0.0.3" ∈ ["10.0.0.2"; "10.0.0.3"]).
      apply (bool_decide_unpack _). by_evaluation.
    + rewrite Hout; [by_evaluation|].
      change ("10.0.0.1" ∉ ["10.0.0.2"; "10.0.0.3"]).
      apply (bool_decide_unpack _). by_evaluation.
Defined.

(** The same handler refuses a batch that holds a name every object
    inherits, although no address of it is mapped. *)
Example mapping_batch_with_inherited_name :
  let out := handleAddIpMapping (Sample.props []) (Sample.mappingForm "10.0.0.2, toString" "d2") in
  out.2 = None
  ∧ error out.1 = "Şu IP'ler zaten tanımlı: toString"
  ∧ IpAccessConfig.departmentIps (ipConfigAfter (Sample.props []) out) !! "10.0.0.2" = None.
Proof. cbv zeta. repeat split; by_evaluation. Qed.

Lemma readd_after_delete_witness :
  ∃ config,
    (handleAddIpMapping
       (withIpConfig (handleDeleteIpMapping (Sample.props []) "10.0.0.1") (Sample.props []))
       SamplePanel.oneAddress).2
    = Some (onUpdateIpConfig config)
    ∧ IpAccessConfig.departmentIps config !! "10.0.0.1" = Some "d2"
    ∧ ∀ other, other ≠ "10.0.0.1" →
        IpAccessConfig.departmentIps config !! other
        = IpAccessConfig.departmentIps (ipConfig (Sample.props [])) !! other.
Proof.
  apply (AccessFacts.readd_after_delete_accepted (Sample.props []) SamplePanel.oneAddress
           "10.0.0.1"); [by_evaluation|discriminate|by_evaluation].
Defined.

Lemma mapping_keeps_ids_witness : "d2" ≠ EmptyString.
Proof.
  apply (IpFacts.handleAddIpMapping_keeps_ids (Sample.props [])
           (Sample.mappingForm "10.0.0.2" "d2") sample_mapping_ids "10.0.0.2" "d2").
  by_evaluation.
Defined.

Lemma addSubmit_rejects_witness :
  ∃ msg, msg ≠ EmptyString
         ∧ @handleAddSubmit SampleRuntime.runtime initialState
           = (setError msg initialState, None).
Proof.
  apply (@UserFormFacts.addSubmit_rejects_incomplete_form SampleRuntime.runtime).
  left. by_evaluation.
Defined.

Lemma addSubmit_keeps_form_witness :
  isUploading (@handleAddSubmit SampleRuntime.runtime Sample.photoForm).1 = false.
Proof.
  exact (proj1 (@UserFormFacts.addSubmit_keeps_form_on_failure SampleRuntime.runtime
                  Sample.photoForm eq_refl)).
Defined.

Lemma fileSelect_then_submit_witness :
  (@handleAddSubmit SampleRuntime.runtime
     (handleFileSelect [mkFile "ayse.png"] SamplePanel.filledForm)).2
  = Some (onAddUser "Ayşe Kaya" "ayse@example.com" fallbackEmoji
            "https://storage.example/user-avatars/ayse.png").
Proof.
  apply (@UserFormFacts.fileSelect_then_submit_uses_fallback SampleRuntime.runtime
           SamplePanel.filledForm (mkFile "ayse.png") []);
    [discriminate|discriminate|reflexivity].
Defined.

Lemma created_user_shows_emoji_witness :
  avatarView (User.mk "u9" "Ayşe Kaya" "ayse@example.com" fallbackEmoji
                (Some "https://storage.example/user-avatars/ayse.png"))
  = showEmoji fallbackEmoji.
Proof.
  apply (@UserFormFacts.created_user_shows_emoji SampleRuntime.runtime Sample.photoForm
           "Ayşe Kaya" "ayse@example.com" fallbackEmoji
           "https://storage.example/user-avatars/ayse.png");
    [by_evaluation|reflexivity].
Defined.

Lemma sortedEvents_witness :
  [SamplePanel.summer; Sample.sale; Sample.launch] ≡ₚ SamplePanel.threeEvents.
Proof.
  apply (SortFacts.sortedEvents_newest_first (Sample.props SamplePanel.threeEvents)).
  by_evaluation.
Defined.

Lemma markUnread_over_sorted_witness :
  @AnnouncementModal.markUnreadEffect SampleRuntime.runtime (Sample.lateEvening + 60000)
    true
    [SamplePanel.bakim; SamplePanel.toplanti; SamplePanel.eski]
    (Some "u1")
  ≡ₚ Announcement.id
       <$> filter (λ a, @AnnouncementModal.isUnread SampleRuntime.runtime
                          (Sample.lateEvening + 60000) a (Some "u1") = true)
             SamplePanel.threeAnnouncements.
Proof.
  apply (@SortFacts.markUnread_over_sorted SampleRuntime.runtime
           (Sample.lateEvening + 60000) SamplePanel.threeAnnouncements).
  by_evaluation.
Defined.

Example markUnread_sample :
  @AnnouncementModal.markUnreadEffect SampleRuntime.runtime (Sample.lateEvening + 60000)
    true
    [SamplePanel.bakim; SamplePanel.toplanti; SamplePanel.eski]
    (Some "u1")
  = ["a2"].
Proof. by_evaluation. Qed.

(** A timer left over from an earlier confirmation withdraws a later
    one: the fifth event, a click right after that timer fired, asks
    for confirmation again and deletes nothing. *)
Example stale_timer_withdraws_confirmation :
  confirmRun confirmInitial [click; click; click; timerFires; click]
  = [false; true; false; false; false].
Proof. reflexivity. Qed.

End MoreInstances.
